(** * Netflix dashboard (my_app.py): data preparation and chart recomputation

    A shallow embedding of the module-level data preparation of
    [my_app.py] (lines 25-49), of the country options of the layout
    (lines 92-94) and of the callback [update_dashboard] (lines 130-218),
    together with the pandas column operations they call.

    Conventions.
    - A data frame is the list of its rows, in index order; a column is
      the list of one field of the rows.  A cell that pandas holds as
      NaN / NaT / None is [None].
    - Characters are Rocq's 8-bit [ascii]; numbers read from the file are
      integers ([Z]), which stand for the floats of the program up to
      2^53.  The columns [title] and [type] are present in every row.
    - pandas' text parsers ([pd.to_datetime], [pd.to_numeric]) are not
      re-implemented: a raw cell records what the parser reads from it
      (see [parsed]). *)

From Stdlib Require Import String Ascii List ZArith Bool Arith Lia.
From Stdlib Require Import Permutation Sorted.
From Stdlib Require Import DecimalString DecimalNat OrdersEx.
Import ListNotations.
Open Scope string_scope.

(** ** pandas operations used by the program *)

Module Pandas.

(** A raw cell together with the outcome of pandas' parser on it. *)
Inductive parsed (A : Type) : Type :=
| Parsed (a : A)              (* the parser reads the value [a] *)
| Unparseable (text : string) (* text the parser rejects *)
| Missing.                    (* empty cell *)
Arguments Parsed {A} a.
Arguments Unparseable {A} text.
Arguments Missing {A}.

(** [errors='coerce']: whatever the parser does not read becomes absent. *)
Definition coerce {A} (c : parsed A) : option A :=
  match c with
  | Parsed a => Some a
  | Unparseable _ => None
  | Missing => None
  end.

(** [Series.fillna(v)]. *)
Definition fillna {A} (v : A) (c : option A) : option A :=
  match c with
  | Some a => Some a
  | None => Some v
  end.

(** *** Regular expressions: the fragment the program can be traced on

    [Series.str.contains(pat)] and [Series.str.extract(pat)] read [pat] as
    a regular expression ([regex=True] is the default of [str.contains]).
    The fragment modelled here has ordinary characters and the dot; a
    pattern with any other metacharacter is outside it ([re_compile]
    gives [None]). *)

Inductive atom : Type :=
| Lit (c : ascii)
| AnyChar.

Definition is_meta (c : ascii) : bool :=
  existsb (Ascii.eqb c)
    (list_ascii_of_string "\^$*+?{}[]|()").

Definition newline : ascii := ascii_of_nat 10.

Fixpoint re_compile (pat : string) : option (list atom) :=
  match pat with
  | EmptyString => Some []
  | String c rest =>
      if is_meta c then None
      else match re_compile rest with
           | None => None
           | Some p => Some ((if Ascii.eqb c "." then AnyChar else Lit c) :: p)
           end
  end.

Definition atom_match (a : atom) (c : ascii) : bool :=
  match a with
  | Lit d => Ascii.eqb c d
  | AnyChar => negb (Ascii.eqb c newline)
  end.

(** The pattern matches a prefix of [s]. *)
Fixpoint match_here (p : list atom) (s : string) : bool :=
  match p with
  | [] => true
  | a :: p' =>
      match s with
      | EmptyString => false
      | String c s' => atom_match a c && match_here p' s'
      end
  end.

(** [re.search]: the pattern matches somewhere in [s]. *)
Fixpoint re_search (p : list atom) (s : string) : bool :=
  match_here p s ||
  match s with
  | EmptyString => false
  | String _ s' => re_search p s'
  end.

(** The pattern of a text without special characters. *)
Definition literal (s : string) : list atom :=
  map Lit (list_ascii_of_string s).

(** [Series.str.contains(pat, na=na)] on one cell, pattern compiled. *)
Definition contains_cell (p : list atom) (na : bool) (c : option string) : bool :=
  match c with
  | Some s => re_search p s
  | None => na
  end.

(** [Series.str.contains(pat, na=na)]: a boolean column, or [None] when
    the pattern is outside the modelled fragment. *)
Definition str_contains (pat : string) (na : bool) (col : list (option string))
  : option (list bool) :=
  match re_compile pat with
  | Some p => Some (map (contains_cell p na) col)
  | None => None
  end.

(** *** [Series.str.extract(r'(\d+)')] *)

Definition is_digit (c : ascii) : bool :=
  let n := nat_of_ascii c in (48 <=? n)%nat && (n <=? 57)%nat.

Definition digit_val (c : ascii) : Z := Z.of_nat (nat_of_ascii c) - 48.

(** Value of the maximal run of digits at the head of [s], after [acc]. *)
Fixpoint digit_run (acc : Z) (s : string) : Z :=
  match s with
  | EmptyString => acc
  | String c rest =>
      if is_digit c then digit_run (10 * acc + digit_val c) rest else acc
  end.

(** The first (leftmost, greedy) run of digits, as a number. *)
Fixpoint first_digits (s : string) : option Z :=
  match s with
  | EmptyString => None
  | String c rest =>
      if is_digit c then Some (digit_run 0 s) else first_digits rest
  end.

Definition str_extract_digits (c : option string) : option Z :=
  match c with
  | Some s => first_digits s
  | None => None
  end.

(** Line 34 goes on with [.astype(float)].  A float64 holds every integer
    up to 2^53 exactly; [float_exact] is the range on which the number
    above is the float of the program.  Longer runs of digits, which the
    program rounds, are outside the model. *)
Definition float_exact (n : Z) : Prop := (0 <= n <= 2 ^ 53)%Z.

(** *** The [.str] accessor

    [Series.str] raises [AttributeError] unless the column holds strings;
    [read_csv] gives the type float64 to a column in which no row has a
    value, and the object type to the columns of a table without rows. *)
Definition has_str_accessor (col : list (option string)) : bool :=
  match col with
  | [] => true
  | _ => existsb (fun c => match c with Some _ => true | None => false end) col
  end.

(** *** [Series.str.split(', ')]

    Left to right, cutting at every occurrence of comma-space; [cur] is
    the token read so far. *)
Fixpoint split_from (cur : string) (s : string) : list string :=
  match s with
  | EmptyString => [cur]
  | String c rest =>
      match rest with
      | String d rest' =>
          if Ascii.eqb c "," && Ascii.eqb d " "
          then cur :: split_from EmptyString rest'
          else split_from (cur ++ String c EmptyString) rest
      | EmptyString => [cur ++ String c EmptyString]
      end
  end.

Definition split_comma (s : string) : list string := split_from EmptyString s.

(** On a column cell: an absent cell stays absent. *)
Definition str_split (c : option string) : option (list string) :=
  match c with
  | Some s => Some (split_comma s)
  | None => None
  end.

(** *** [DataFrame.explode(column)]

    One row per element of a list cell; a row whose cell is a scalar
    (here: absent) is kept as it is, and an empty list leaves one row with
    an absent cell. [get] reads the column, [set] writes the exploded
    cell into a copy of the row. *)
Definition explode {R S : Type} (get : R -> option (list string))
    (set : R -> option string -> S) (df : list R) : list S :=
  flat_map (fun r =>
    match get r with
    | None => [set r None]
    | Some [] => [set r None]
    | Some l => map (fun g => set r (Some g)) l
    end) df.

(** *** Boolean indexing [df[mask]] *)
Fixpoint select {R : Type} (mask : list bool) (df : list R) : list R :=
  match mask, df with
  | b :: mask', r :: df' => if b then r :: select mask' df' else select mask' df'
  | _, _ => []
  end.

Definition mask_and (m1 m2 : list bool) : list bool :=
  map (fun p => fst p && snd p) (combine m1 m2).

(** Comparisons of a numeric column with a number: absent compares false. *)
Definition col_ge (col : list (option Z)) (v : Z) : list bool :=
  map (fun c => match c with Some y => (v <=? y)%Z | None => false end) col.

Definition col_le (col : list (option Z)) (v : Z) : list bool :=
  map (fun c => match c with Some y => (y <=? v)%Z | None => false end) col.

Definition col_eq (col : list string) (v : string) : list bool :=
  map (fun c => String.eqb c v) col.

(** [DataFrame.dropna(subset=[column])]. *)
Definition dropna {R A : Type} (get : R -> option A) (df : list R) : list R :=
  filter (fun r => match get r with Some _ => true | None => false end) df.

(** *** [Series.value_counts()]

    Absent cells are not counted.  The distinct values are tallied in
    order of first appearance and then sorted by decreasing count.
    pandas leaves the order among equal counts open; here the order of
    first appearance is kept, and the tables evaluated below have no two
    equal counts. *)
Section ValueCounts.
Context {A : Type} (eqbA : A -> A -> bool).

Fixpoint bump (k : A) (t : list (A * nat)) : list (A * nat) :=
  match t with
  | [] => [(k, 1%nat)]
  | (k', n) :: t' =>
      if eqbA k k' then (k', S n) :: t' else (k', n) :: bump k t'
  end.

Definition present (col : list (option A)) : list A :=
  flat_map (fun c => match c with Some a => [a] | None => [] end) col.

Definition tally (keys : list A) : list (A * nat) :=
  fold_left (fun t k => bump k t) keys [].

Fixpoint insert_desc (x : A * nat) (t : list (A * nat)) : list (A * nat) :=
  match t with
  | [] => [x]
  | y :: t' =>
      if (snd x <? snd y)%nat then y :: insert_desc x t' else x :: y :: t'
  end.

Definition sort_desc (t : list (A * nat)) : list (A * nat) :=
  fold_right insert_desc [] t.

Definition value_counts (col : list (option A)) : list (A * nat) :=
  sort_desc (tally (present col)).

(** The count a table of counts gives to [k]. *)
Definition count_in (k : A) (t : list (A * nat)) : nat :=
  list_sum (map snd (filter (fun p => eqbA k (fst p)) t)).

(** Number of cells of a list of keys equal to [k]. *)
Definition occ (k : A) (keys : list A) : nat := length (filter (eqbA k) keys).
End ValueCounts.

(** Sum of all the counts of a table. *)
Definition total {A : Type} (t : list (A * nat)) : nat := list_sum (map snd t).

(** [Series.head(n)]. *)
Definition head {A : Type} (n : nat) (l : list A) : list A := firstn n l.

(** *** [DataFrame.groupby([k1, k2]).size()]

    Rows with an absent key are dropped; the groups come out sorted by
    key.  Keys here are (number, string) pairs, ordered lexicographically. *)
Definition key_compare (a b : Z * string) : comparison :=
  match Z.compare (fst a) (fst b) with
  | Eq => String.compare (snd a) (snd b)
  | c => c
  end.

Fixpoint group_bump (k : Z * string) (t : list ((Z * string) * nat))
  : list ((Z * string) * nat) :=
  match t with
  | [] => [(k, 1%nat)]
  | (k', n) :: t' =>
      match key_compare k k' with
      | Eq => (k', S n) :: t'
      | Lt => (k, 1%nat) :: (k', n) :: t'
      | Gt => (k', n) :: group_bump k t'
      end
  end.

Definition groupby_size (keys : list (Z * string)) : list ((Z * string) * nat) :=
  fold_left (fun t k => group_bump k t) keys [].

(** Equality of group keys. *)
Definition key_eqb (a b : Z * string) : bool :=
  Z.eqb (fst a) (fst b) && String.eqb (snd a) (snd b).

(** *** [Series.min()] and [Series.max()]

    Absent cells are skipped; the result is absent (NaN) when no cell is
    present. *)
Definition min_step (acc : option Z) (c : option Z) : option Z :=
  match c, acc with
  | Some y, Some x => Some (Z.min x y)
  | Some y, None => Some y
  | None, _ => acc
  end.

Definition max_step (acc : option Z) (c : option Z) : option Z :=
  match c, acc with
  | Some y, Some x => Some (Z.max x y)
  | Some y, None => Some y
  | None, _ => acc
  end.

Definition col_min (col : list (option Z)) : option Z :=
  fold_left min_step col None.

Definition col_max (col : list (option Z)) : option Z :=
  fold_left max_step col None.

(** *** Python's [range(start, stop, step)] for a positive step

    [n] bounds the number of elements still to come. *)
Fixpoint range_from (n : nat) (start stop step : Z) : list Z :=
  match n with
  | O => []
  | S n' =>
      if (start <? stop)%Z
      then start :: range_from n' (start + step) stop step
      else []
  end.

Definition py_range (start stop step : Z) : list Z :=
  range_from (Z.to_nat (stop - start)) start stop step.

End Pandas.

(** ** The program *)

Module App.
Import Pandas.

Record Date : Type := { year : Z; month : Z; day : Z }.

(** A row of [netflix_titles.csv] as [pd.read_csv] delivers it (the
    columns the program reads). *)
Record RawRow : Type := {
  raw_title : string;
  raw_type : string;
  raw_country : option string;
  raw_date_added : parsed Date;
  raw_release_year : parsed Z;
  raw_rating : option string;
  raw_duration : option string;
  raw_listed_in : option string
}.

(** A row of the global [df]; [G] is the type of the [genres] cell: a
    list of tokens after line 45, one token after line 46. *)
Record Row (G : Type) : Type := {
  title : string;
  type : string;
  country : option string;
  date_added : option Date;
  year_added : option Z;
  rating : option string;
  duration : option string;
  duration_num : option Z;
  duration_unit : option string;
  movie_duration : option Z;
  tv_seasons : option Z;
  listed_in : option string;
  genres : G;
  release_year : option Z
}.
Arguments title {G} _.
Arguments type {G} _.
Arguments country {G} _.
Arguments date_added {G} _.
Arguments year_added {G} _.
Arguments rating {G} _.
Arguments duration {G} _.
Arguments duration_num {G} _.
Arguments duration_unit {G} _.
Arguments movie_duration {G} _.
Arguments tv_seasons {G} _.
Arguments listed_in {G} _.
Arguments genres {G} _.
Arguments release_year {G} _.

(** A row of the exploded table, and the table the callback reads. *)
Definition ERow : Type := Row (option string).
Definition DataFrame : Type := list ERow.

(** *** Data cleaning and preprocessing (lines 25-49) *)

(** Line 27: [df['date_added'].dt.year]. *)
Definition year_of (d : option Date) : option Z :=
  match d with
  | Some d => Some (year d)
  | None => None
  end.

(** Lines 35-38: the two nested [np.where] on [str.contains(.., na=False)]. *)
Definition unit_of (d : option string) : option string :=
  if contains_cell (literal "min") false d then Some "min"
  else if contains_cell (literal "Season") false d then Some "season"
  else None.

(** Lines 41-42: [np.where(df['type'] == t, df['duration_num'], np.nan)]. *)
Definition gated (t : string) (ty : string) (n : option Z) : option Z :=
  if String.eqb ty t then n else None.

(** Lines 26-45 and 49 on one row: every one of these assignments maps
    a column cell by cell.  (Line 49 is written after the explode of line
    46; it reads and writes [release_year] only, which the explode
    copies.) *)
Definition clean (r : RawRow) : Row (option (list string)) :=
  let date := coerce (raw_date_added r) in
  let num := str_extract_digits (raw_duration r) in
  {| title := raw_title r;
     type := raw_type r;
     country := fillna "Unknown" (raw_country r);
     date_added := date;
     year_added := year_of date;
     rating := fillna "Unknown" (raw_rating r);
     duration := raw_duration r;
     duration_num := num;
     duration_unit := unit_of (raw_duration r);
     movie_duration := gated "Movie" (raw_type r) num;
     tv_seasons := gated "TV Show" (raw_type r) num;
     listed_in := raw_listed_in r;
     genres := str_split (raw_listed_in r);
     release_year := coerce (raw_release_year r) |}.

(** A copy of the row with another [genres] cell. *)
Definition with_genres {G H : Type} (r : Row G) (g : H) : Row H :=
  {| title := title r; type := type r; country := country r;
     date_added := date_added r; year_added := year_added r;
     rating := rating r; duration := duration r;
     duration_num := duration_num r; duration_unit := duration_unit r;
     movie_duration := movie_duration r; tv_seasons := tv_seasons r;
     listed_in := listed_in r; genres := g;
     release_year := release_year r |}.

(** A copy of the row with another [country] cell. *)
Definition with_country {G : Type} (r : Row G) (c : option string) : Row G :=
  {| title := title r; type := type r; country := c;
     date_added := date_added r; year_added := year_added r;
     rating := rating r; duration := duration r;
     duration_num := duration_num r; duration_unit := duration_unit r;
     movie_duration := movie_duration r; tv_seasons := tv_seasons r;
     listed_in := listed_in r; genres := genres r;
     release_year := release_year r |}.

(** Line 46: [df = df.explode('genres')].  The name [df] is rebound: from
    here on the program holds the exploded table only. *)
Definition explode_genres (t : list (Row (option (list string)))) : DataFrame :=
  explode genres with_genres t.

(** The global [df] after line 49, when lines 34 and 45 do not raise
    (see [prepare]). *)
Definition load (raw : list RawRow) : DataFrame :=
  explode_genres (map clean raw).

(** Lines 25-49 with their exceptions: [df['duration'].str] (line 34) and
    [df['listed_in'].str] (line 45) raise [AttributeError] on a column
    without strings. *)
Inductive PrepareError : Type :=
| AttributeError (column : string).

Definition prepare (raw : list RawRow) : DataFrame + PrepareError :=
  if negb (has_str_accessor (map raw_duration raw))
  then inr (AttributeError "duration")
  else if negb (has_str_accessor (map raw_listed_in raw))
       then inr (AttributeError "listed_in")
       else inl (load raw).

(** *** Layout: the options of the country dropdown (lines 92-94) *)

Definition country_value_counts (df : DataFrame) : list (string * nat) :=
  value_counts String.eqb (map country df).

Definition country_options (df : DataFrame) : list string :=
  "All" :: map fst (head 10 (country_value_counts df)).

(** *** The callback [update_dashboard] (lines 130-218) *)

(** Lines 132-135. *)
Definition filter_years (selected_years : Z * Z) (df : DataFrame) : DataFrame :=
  select
    (mask_and (col_ge (map release_year df) (fst selected_years))
              (col_le (map release_year df) (snd selected_years)))
    df.

(** Lines 137-138. *)
Definition filter_type (selected_type : string) (df : DataFrame) : DataFrame :=
  if String.eqb selected_type "All" then df
  else select (col_eq (map type df) selected_type) df.

(** Lines 140-141; [None] when [selected_country] is a pattern outside
    the modelled fragment of regular expressions. *)
Definition filter_country (selected_country : string) (df : DataFrame)
  : option DataFrame :=
  if String.eqb selected_country "All" then Some df
  else match str_contains selected_country false (map country df) with
       | Some mask => Some (select mask df)
       | None => None
       end.

(** The local [filtered_df] when the charts are drawn. *)
Definition filtered_df (df : DataFrame) (selected_years : Z * Z)
    (selected_type selected_country : string) : option DataFrame :=
  filter_country selected_country
    (filter_type selected_type (filter_years selected_years df)).

(** Line 144. *)
Definition type_counts (fdf : DataFrame) : list (string * nat) :=
  value_counts String.eqb (map (fun r => Some (type r)) fdf).

(** Line 158, before and after [.head(10)]. *)
Definition genre_value_counts (fdf : DataFrame) : list (string * nat) :=
  value_counts String.eqb (map genres fdf).

Definition genre_counts (fdf : DataFrame) : list (string * nat) :=
  head 10 (genre_value_counts fdf).

(** Line 171: the keys of [groupby(['year_added', 'type'])]; a row whose
    [year_added] is absent has no key. *)
Definition group_key (r : ERow) : list (Z * string) :=
  match year_added r with
  | Some y => [(y, type r)]
  | None => []
  end.

Definition timeline_df (fdf : DataFrame) : list ((Z * string) * nat) :=
  groupby_size (flat_map group_key fdf).

(** Line 183. *)
Definition scatter_df (fdf : DataFrame) : DataFrame :=
  dropna duration_num fdf.

(** Lines 201-204. *)
Definition exploded_countries (fdf : DataFrame) : DataFrame :=
  explode (fun r => str_split (country r)) with_country fdf.

Definition country_counts (fdf : DataFrame) : list (string * nat) :=
  value_counts String.eqb (map country (exploded_countries fdf)).

(** A chart specification: kind, title and data table. *)
Inductive Kind : Type := Pie | Bar | Line | Scatter | Choropleth.

Record Figure (D : Type) : Type := {
  kind : Kind;
  fig_title : string;
  data : D
}.
Arguments kind {D} _.
Arguments fig_title {D} _.
Arguments data {D} _.

(** The five figures the callback returns, in order. *)
Record ChartSet : Type := {
  type_pie : Figure (list (string * nat));
  genre_bar : Figure (list (string * nat));
  timeline : Figure (list ((Z * string) * nat));
  duration_scatter : Figure DataFrame;
  country_map : Figure (list (string * nat))
}.

Definition charts (fdf : DataFrame) : ChartSet :=
  {| type_pie :=
       {| kind := Pie; fig_title := "Movies vs. TV Shows";
          data := type_counts fdf |};
     genre_bar :=
       {| kind := Bar; fig_title := "Top 10 Genres";
          data := genre_counts fdf |};
     timeline :=
       {| kind := Line; fig_title := "Content Added to Netflix Over Time";
          data := timeline_df fdf |};
     duration_scatter :=
       {| kind := Scatter; fig_title := "Content Duration Trends";
          data := scatter_df fdf |};
     country_map :=
       {| kind := Choropleth; fig_title := "Content Production by Country";
          data := country_counts fdf |} |}.

Definition update_dashboard (df : DataFrame) (selected_years : Z * Z)
    (selected_type selected_country : string) : option ChartSet :=
  match filtered_df df selected_years selected_type selected_country with
  | Some fdf => Some (charts fdf)
  | None => None
  end.

(** The three values a request carries. *)
Definition Request : Type := ((Z * Z) * string * string)%type.

End App.

(** ** The callback on the object store

    Python names refer to objects.  The store is the list of the objects
    allocated so far and a reference is a position in it; the global [df]
    is one of them.  An operation of pandas or plotly that returns a new
    object allocates; the three assignments to [.columns] (lines 145, 159,
    205) and the [update_...] calls on figures change an object in
    place.  Temporaries that no name keeps are not represented.  The
    column labels that [reset_index] gives depend on the version of
    pandas; the program overwrites them on the next line. *)

Module Store.
Import Pandas App.
Local Open Scope list_scope.

Inductive Obj : Type :=
| OFrame (rows : DataFrame)
| OCounts (columns : list string) (table : list (string * nat))
| OGroups (columns : list string) (table : list ((Z * string) * nat))
| OFigCounts (fig : Figure (list (string * nat))) (updates : list string)
| OFigGroups (fig : Figure (list ((Z * string) * nat))) (updates : list string)
| OFigFrame (fig : Figure DataFrame) (updates : list string).

Definition Heap : Type := list Obj.
Definition Ref : Type := nat.

(** Computations on the store; [None] is a raised exception. *)
Definition M (A : Type) : Type := Heap -> option (A * Heap).

Definition ret {A : Type} (a : A) : M A := fun h => Some (a, h).

Definition bind {A B : Type} (m : M A) (k : A -> M B) : M B :=
  fun h => match m h with
           | Some (a, h') => k a h'
           | None => None
           end.

Definition fail {A : Type} : M A := fun _ => None.

Notation "x <- m ;; k" := (bind m (fun x => k))
  (at level 61, m at next level, right associativity).

(** A new object, at the end of the store. *)
Definition alloc (o : Obj) : M Ref := fun h => Some (length h, h ++ [o]).

Definition read (r : Ref) : M Obj :=
  fun h => match nth_error h r with
           | Some o => Some (o, h)
           | None => None
           end.

Fixpoint replace (r : nat) (o : Obj) (h : Heap) : Heap :=
  match h, r with
  | [], _ => []
  | _ :: t, O => o :: t
  | x :: t, S r' => x :: replace r' o t
  end.

(** A change in place of the object at [r]. *)
Definition update (r : Ref) (f : Obj -> option Obj) : M unit :=
  fun h => match nth_error h r with
           | Some o =>
               match f o with
               | Some o' => Some (tt, replace r o' h)
               | None => None
               end
           | None => None
           end.

Definition read_frame (r : Ref) : M DataFrame :=
  o <- read r ;;
  match o with
  | OFrame t => ret t
  | _ => fail
  end.

(** [obj.columns = labels]. *)
Definition set_columns (r : Ref) (labels : list string) : M unit :=
  update r (fun o =>
    match o with
    | OCounts _ t => Some (OCounts labels t)
    | OGroups _ t => Some (OGroups labels t)
    | _ => None
    end).

(** [fig.update_traces(...)], [fig.update_layout(...)] and the like: the
    figure keeps the list of the updates applied to it. *)
Definition update_figure (r : Ref) (what : string) : M unit :=
  update r (fun o =>
    match o with
    | OFigCounts f u => Some (OFigCounts f (u ++ [what]))
    | OFigGroups f u => Some (OFigGroups f (u ++ [what]))
    | OFigFrame f u => Some (OFigFrame f (u ++ [what]))
    | _ => None
    end).

(** [px.pie], [px.bar], [px.choropleth] on a table of counts; [px.line]
    on the grouped counts; [px.scatter] on a frame. *)
Definition px_counts (k : Kind) (title : string) (r : Ref) : M Ref :=
  o <- read r ;;
  match o with
  | OCounts _ t => alloc (OFigCounts {| kind := k; fig_title := title; data := t |} [])
  | _ => fail
  end.

Definition px_groups (k : Kind) (title : string) (r : Ref) : M Ref :=
  o <- read r ;;
  match o with
  | OGroups _ t => alloc (OFigGroups {| kind := k; fig_title := title; data := t |} [])
  | _ => fail
  end.

Definition px_frame (k : Kind) (title : string) (r : Ref) : M Ref :=
  o <- read r ;;
  match o with
  | OFrame t => alloc (OFigFrame {| kind := k; fig_title := title; data := t |} [])
  | _ => fail
  end.

(** Lines 130-218, statement by statement; [df] is the reference of
    the global table.  The value returned is the list of the references of
    the five figures. *)
Definition update_dashboard_st (df : Ref) (selected_years : Z * Z)
    (selected_type selected_country : string) : M (list Ref) :=
  (* 132-135 *)
  t <- read_frame df ;;
  filtered_df <- alloc (OFrame (filter_years selected_years t)) ;;
  (* 137-138 *)
  filtered_df <-
    (if String.eqb selected_type "All" then ret filtered_df
     else t <- read_frame filtered_df ;;
          alloc (OFrame (select (col_eq (map type t) selected_type) t))) ;;
  (* 140-141 *)
  filtered_df <-
    (if String.eqb selected_country "All" then ret filtered_df
     else t <- read_frame filtered_df ;;
          match str_contains selected_country false (map country t) with
          | Some mask => alloc (OFrame (select mask t))
          | None => fail
          end) ;;
  (* 144-155 *)
  t <- read_frame filtered_df ;;
  type_counts <- alloc (OCounts ["type"; "count"] (type_counts t)) ;;
  _ <- set_columns type_counts ["type"; "count"] ;;
  type_pie <- px_counts Pie "Movies vs. TV Shows" type_counts ;;
  _ <- update_figure type_pie "update_traces" ;;
  (* 158-168 *)
  t <- read_frame filtered_df ;;
  genre_counts <- alloc (OCounts ["genres"; "count"] (genre_counts t)) ;;
  _ <- set_columns genre_counts ["genre"; "count"] ;;
  genre_bar <- px_counts Bar "Top 10 Genres" genre_counts ;;
  _ <- update_figure genre_bar "update_layout" ;;
  (* 171-180 *)
  t <- read_frame filtered_df ;;
  timeline_df <- alloc (OGroups ["year_added"; "type"; "count"] (timeline_df t)) ;;
  timeline <- px_groups Line "Content Added to Netflix Over Time" timeline_df ;;
  _ <- update_figure timeline "update_layout" ;;
  (* 183-198 *)
  t <- read_frame filtered_df ;;
  scatter_df <- alloc (OFrame (scatter_df t)) ;;
  duration_scatter <- px_frame Scatter "Content Duration Trends" scatter_df ;;
  _ <- update_figure duration_scatter "update_traces" ;;
  _ <- update_figure duration_scatter "update_yaxes" ;;
  _ <- update_figure duration_scatter "for_each_yaxis" ;;
  _ <- update_figure duration_scatter "update_layout" ;;
  (* 201-216 *)
  t <- read_frame filtered_df ;;
  exploded_countries <- alloc (OFrame (exploded_countries t)) ;;
  t <- read_frame exploded_countries ;;
  country_counts <-
    alloc (OCounts ["country"; "count"]
             (value_counts String.eqb (map country t))) ;;
  _ <- set_columns country_counts ["country"; "count"] ;;
  country_map <- px_counts Choropleth "Content Production by Country"
                   country_counts ;;
  _ <- update_figure country_map "update_layout" ;;
  (* 218 *)
  ret [type_pie; genre_bar; timeline; duration_scatter; country_map].

Fixpoint read_all (rs : list Ref) : M (list Obj) :=
  match rs with
  | [] => ret []
  | r :: rs' =>
      o <- read r ;;
      os <- read_all rs' ;;
      ret (o :: os)
  end.

(** One request: the callback runs, and the five figures it returns are
    read from the store to be sent. *)
Definition serve_request (df : Ref) (q : Request) : M (list Obj) :=
  let '(selected_years, selected_type, selected_country) := q in
  rs <- update_dashboard_st df selected_years selected_type selected_country ;;
  read_all rs.

(** Requests one after the other on the same store, oldest first. *)
Fixpoint serve_all (df : Ref) (qs : list Request) : M (list (list Obj)) :=
  match qs with
  | [] => ret []
  | q :: qs' =>
      r <- serve_request df q ;;
      rs <- serve_all df qs' ;;
      ret (r :: rs)
  end.

(** The five figures of a chart set as they are when the callback
    returns. *)
Definition styled (cs : ChartSet) : list Obj :=
  [ OFigCounts (type_pie cs) ["update_traces"];
    OFigCounts (genre_bar cs) ["update_layout"];
    OFigGroups (timeline cs) ["update_layout"];
    OFigFrame (duration_scatter cs)
      ["update_traces"; "update_yaxes"; "for_each_yaxis"; "update_layout"];
    OFigCounts (country_map cs) ["update_layout"] ].

(** The figures a request gets on the table [d]. *)
Definition figures_for (d : DataFrame) (q : Request) : option (list Obj) :=
  let '(selected_years, selected_type, selected_country) := q in
  match update_dashboard d selected_years selected_type selected_country with
  | Some cs => Some (styled cs)
  | None => None
  end.

End Store.

(** ** Start of the process: reading the file, and the layout *)

Module Startup.
Import Pandas App.

(** *** Lines 13-23: where the table comes from

    The three calls of [pd.read_csv] are not re-implemented: the world
    gives, for each, the table it returns or the exception it raises. *)
Inductive ReadError : Type :=
| UnicodeDecodeError
| FileNotFoundError
| OtherError (name : string).

Inductive Outcome : Type :=
| Returned (rows : list RawRow)
| Raised (e : ReadError).

Record World : Type := {
  url_utf8 : Outcome;     (* pd.read_csv(url, encoding='utf-8') *)
  local_utf8 : Outcome;   (* pd.read_csv('netflix_titles.csv', encoding='utf-8') *)
  local_latin1 : Outcome  (* pd.read_csv('netflix_titles.csv', encoding='latin1') *)
}.

(** What ends the module when no table is read: an exception of
    [read_csv] that no handler catches, or the [Exception] of line 23. *)
Inductive Failure : Type :=
| Uncaught (e : ReadError)
| CouldNotLoad.

Definition could_not_load_message : string :=
  "Could not load Netflix data - neither from URL nor local file".

(** Lines 13-23.  The outer handler is a bare [except]; the inner [try]
    has one handler for [UnicodeDecodeError], whose body reads the file
    again as latin1 outside any [try], and one for [FileNotFoundError]. *)
Definition read_data (w : World) : list RawRow + Failure :=
  match url_utf8 w with
  | Returned rows => inl rows
  | Raised _ =>
      match local_utf8 w with
      | Returned rows => inl rows
      | Raised UnicodeDecodeError =>
          match local_latin1 w with
          | Returned rows => inl rows
          | Raised e => inr (Uncaught e)
          end
      | Raised FileNotFoundError => inr CouldNotLoad
      | Raised (OtherError name) => inr (Uncaught (OtherError name))
      end
  end.

(** The global [df] at the end of line 49, if the module gets there. *)
Definition startup (w : World) : DataFrame + (Failure + PrepareError) :=
  match read_data w with
  | inl rows =>
      match prepare rows with
      | inl df => inl df
      | inr e => inr (inr e)
      end
  | inr f => inr (inl f)
  end.

(** *** Lines 68-77: the release-year slider

    [int(df['release_year'].min())] raises on NaN, so there is no slider
    (and no layout) when no row has a release year. *)
Record Slider : Type := {
  slider_min : Z;
  slider_max : Z;
  slider_value : Z * Z;
  slider_marks : list Z
}.

Definition year_slider (df : DataFrame) : option Slider :=
  match col_min (map release_year df), col_max (map release_year df) with
  | Some lo, Some hi =>
      Some {| slider_min := lo; slider_max := hi;
              slider_value := (lo, hi);
              slider_marks := py_range lo (hi + 1) 5 |}
  | _, _ => None
  end.

(** Lines 82-84: the values of the type dropdown. *)
Definition type_options : list string := ["All"; "Movie"; "TV Show"].

End Startup.

(** ** Row-level readings of the filters, and observations of the figures *)

Module Views.
Import Pandas App.

(** [p] occurs in [s] as a substring. *)
Definition Substring (p s : string) : Prop :=
  exists a b, s = a ++ p ++ b.


(** A comma-space occurs in the text. *)
Fixpoint has_sep (s : string) : bool :=
  match s with
  | String c (String d _ as rest) =>
      Ascii.eqb c "," && Ascii.eqb d " " || has_sep rest
  | _ => false
  end.

(** The text ends with a comma; the text starts with a space. *)
Fixpoint ends_comma (s : string) : bool :=
  match s with
  | EmptyString => false
  | String c EmptyString => Ascii.eqb c ","
  | String _ rest => ends_comma rest
  end.

Definition starts_space (s : string) : bool :=
  match s with
  | String c _ => Ascii.eqb c " "
  | EmptyString => false
  end.

(** The row of a record before the explode writes its [genres] cell. *)
Definition base_row (r : RawRow) : ERow := with_genres (clean r) None.

(** Number of rows the explode gives a record, and number of genre
    tokens of the record. *)
Definition rows_of (r : RawRow) : nat :=
  match raw_listed_in r with
  | Some s => length (split_comma s)
  | None => 1
  end.

Definition tokens_of (r : RawRow) : nat :=
  match raw_listed_in r with
  | Some s => length (split_comma s)
  | None => 0
  end.

(** The year test of lines 133-134 on one row. *)
Definition in_years (selected_years : Z * Z) (r : ERow) : bool :=
  match release_year r with
  | Some y => (fst selected_years <=? y)%Z && (y <=? snd selected_years)%Z
  | None => false
  end.

(** The type test of lines 137-138 on one row. *)
Definition of_type (selected_type : string) (r : ERow) : bool :=
  String.eqb selected_type "All" || String.eqb (type r) selected_type.

(** The country test of lines 140-141 on one row, when the selected
    value compiles. *)
Definition country_test (selected_country : string) : option (ERow -> bool) :=
  if String.eqb selected_country "All" then Some (fun _ => true)
  else match re_compile selected_country with
       | Some p => Some (fun r => contains_cell p false (country r))
       | None => None
       end.

(** [f1] selects within [f2]: a year range inside that of [f2], and a
    type and a country that are those of [f2] unless [f2] has All. *)
Definition narrower (f1 f2 : Request) : Prop :=
  let '(years1, type1, country1) := f1 in
  let '(years2, type2, country2) := f2 in
  (fst years2 <= fst years1)%Z /\ (snd years1 <= snd years2)%Z /\
  (type1 = type2 \/ type2 = "All") /\
  (country1 = country2 \/ country2 = "All").

(** The local [filtered_df] of a request. *)
Definition filtered_for (df : DataFrame) (f : Request) : option DataFrame :=
  let '(years, ty, c) := f in filtered_df df years ty c.

(** The type counts and the genre counts of a chart set, if any. *)
Definition counts_1_2 (cs : option ChartSet)
  : option (list (string * nat) * list (string * nat)) :=
  match cs with
  | Some cs => Some (data (type_pie cs), data (genre_bar cs))
  | None => None
  end.

(** The data of charts 1, 3, 5 and the number of points of chart 4. *)
Definition counts_1_3_4_5 (cs : option ChartSet) :=
  match cs with
  | Some cs => Some (data (type_pie cs), data (timeline cs),
                     length (data (duration_scatter cs)),
                     data (country_map cs))
  | None => None
  end.

(** Some character of the text is a digit; the text starts with a digit. *)
Definition has_digit (s : string) : bool :=
  existsb is_digit (list_ascii_of_string s).

Definition starts_digit (s : string) : bool :=
  match s with
  | String c _ => is_digit c
  | EmptyString => false
  end.

(** The decimal writing of a natural number. *)
Definition decimal (n : nat) : string :=
  DecimalString.NilEmpty.string_of_uint (Nat.to_uint n).

(** Group keys in increasing order: by year, then by type. *)
Definition key_lt (a b : Z * string) : Prop := key_compare a b = Lt.

(** The test of the three filters on a record, read on its row before
    the explode; [q] is the country test. *)
Definition record_kept (selected_years : Z * Z) (selected_type : string)
    (q : ERow -> bool) (r : RawRow) : bool :=
  in_years selected_years (base_row r) && of_type selected_type (base_row r)
  && q (base_row r).

(** Number of country tokens of a row. *)
Definition country_tokens (r : ERow) : nat :=
  match country r with
  | Some c => length (split_comma c)
  | None => 0
  end.

(** Numbers of rows of a table with a given type, genre, country cell,
    or (year added, type) pair. *)
Definition rows_of_type (t : string) (fdf : DataFrame) : nat :=
  length (filter (fun r => String.eqb t (type r)) fdf).

Definition rows_of_genre (g : string) (fdf : DataFrame) : nat :=
  length (filter (fun r => match genres r with
                           | Some g' => String.eqb g g'
                           | None => false
                           end) fdf).

Definition rows_of_country (c : string) (fdf : DataFrame) : nat :=
  length (filter (fun r => match country r with
                           | Some c' => String.eqb c c'
                           | None => false
                           end) fdf).

Definition rows_added (k : Z * string) (fdf : DataFrame) : nat :=
  length (filter (fun r => match year_added r with
                           | Some y => key_eqb k (y, type r)
                           | None => false
                           end) fdf).

End Views.

(** ** Small catalogues used below *)

Module Scenarios.
Import Pandas App.
Local Open Scope list_scope.

Definition record (ty : string) (y : Z) (c : option string)
    (added : parsed Date) (d : option string) (l : option string) : RawRow :=
  {| raw_title := "T"; raw_type := ty; raw_country := c;
     raw_date_added := added; raw_release_year := Parsed y;
     raw_rating := None; raw_duration := d; raw_listed_in := l |}.

(** The two records of the concrete scenario of the specification. *)
Definition movie_2019 : RawRow :=
  record "Movie" 2019 (Some "India") Missing (Some "90 min") (Some "Comedy").

Definition show_2020 : RawRow :=
  record "TV Show" 2020 (Some "USA") Missing (Some "2 Seasons")
    (Some "Drama, Comedy").

Definition scenario : list RawRow := [movie_2019; show_2020].

(** One show with two genres, added in 2021. *)
Definition two_genre_show : RawRow :=
  record "TV Show" 2020 (Some "USA")
    (Parsed {| year := 2021; month := 9; day := 25 |})
    (Some "2 Seasons") (Some "Drama, Comedy").

(** Ten countries with 12, 11, ..., 4 and 2 one-genre titles, and one
    country with a single title of three genres: no two countries have
    the same number of titles, nor the same number of (title, genre)
    rows. *)
Definition one_genre (c : string) : RawRow :=
  record "Movie" 2019 (Some c) Missing (Some "90 min") (Some "Comedy").

Definition titles_per_country : list (string * nat) :=
  [("Brazil", 12); ("Canada", 11); ("Egypt", 10); ("France", 9);
   ("India", 8); ("Japan", 7); ("Mexico", 6); ("Spain", 5);
   ("Turkey", 4); ("USA", 2)]%nat.

Definition skewed : list RawRow :=
  flat_map (fun p => repeat (one_genre (fst p)) (snd p)) titles_per_country ++
  [ record "Movie" 2019 (Some "Kenya") Missing (Some "90 min")
      (Some "Drama, Comedy, Thrillers") ].

(** A record whose [release_year] is not a number. *)
Definition no_year : RawRow :=
  {| raw_title := "T"; raw_type := "Movie"; raw_country := Some "India";
     raw_date_added := Missing; raw_release_year := Unparseable "n/a";
     raw_rating := None; raw_duration := Some "90 min";
     raw_listed_in := Some "Comedy" |}.

(** A record without [listed_in]. *)
Definition unlisted : RawRow :=
  record "Movie" 2019 (Some "India") Missing (Some "90 min") None.

(** A record without [date_added] and without [duration]. *)
Definition undated : RawRow :=
  record "Movie" 2019 (Some "India") Missing None (Some "Comedy").

(** A movie with every cell, added in 2021. *)
Definition dated_movie : RawRow :=
  record "Movie" 2019 (Some "India")
    (Parsed {| year := 2021; month := 9; day := 25 |})
    (Some "90 min") (Some "Comedy").

(** Records by country only. *)
Definition from_country (c : option string) : RawRow :=
  record "Movie" 2019 c Missing (Some "90 min") (Some "Comedy").

(** The country counts the specification describes: every record's
    [country] value counted once (no explode before the count). *)
Definition record_country_counts (raw : list RawRow) : list (string * nat) :=
  value_counts String.eqb (map (fun r => country (clean r)) raw).

End Scenarios.

(** ** Facts about the pandas operations *)

Module PandasFacts.
Import Pandas.
Local Open Scope list_scope.

(** *** Boolean indexing is [filter] when the mask is computed row by row *)

Lemma select_map {R : Type} (p : R -> bool) (df : list R) :
  select (map p df) df = filter p df.
Proof.
  induction df as [|r df IH]; simpl; [reflexivity|].
  rewrite IH. reflexivity.
Qed.

Lemma mask_and_map {R : Type} (f g : R -> bool) (l : list R) :
  mask_and (map f l) (map g l) = map (fun x => f x && g x) l.
Proof.
  unfold mask_and. induction l as [|x l IH]; simpl; [reflexivity|].
  now rewrite IH.
Qed.

Lemma filter_filter {R : Type} (p q : R -> bool) (l : list R) :
  filter p (filter q l) = filter (fun x => q x && p x) l.
Proof.
  induction l as [|x l IH]; simpl; [reflexivity|].
  destruct (q x); simpl; [destruct (p x)|]; now rewrite IH.
Qed.

Lemma filter_length_mono {R : Type} (p q : R -> bool) (l : list R) :
  (forall x, In x l -> p x = true -> q x = true) ->
  (length (filter p l) <= length (filter q l))%nat.
Proof.
  induction l as [|x l IH]; simpl; intros H; [lia|].
  assert (IH' : (length (filter p l) <= length (filter q l))%nat)
    by (apply IH; intros y Hy; apply H; now right).
  destruct (p x) eqn:Hp.
  - rewrite (H x (or_introl eq_refl) Hp). simpl. lia.
  - destruct (q x); simpl; lia.
Qed.

(** *** Sums of counts *)

Lemma list_sum_perm (l l' : list nat) :
  Permutation l l' -> list_sum l = list_sum l'.
Proof.
  induction 1; simpl; lia.
Qed.

Lemma total_perm {A : Type} (t t' : list (A * nat)) :
  Permutation t t' -> total t = total t'.
Proof.
  intros H. unfold total. apply list_sum_perm. now apply Permutation_map.
Qed.

Section ValueCountsFacts.
Context {A : Type} (eqbA : A -> A -> bool).
Hypothesis eqbA_spec : forall a b, eqbA a b = true <-> a = b.

Lemma eqbA_refl a : eqbA a a = true.
Proof. now apply eqbA_spec. Qed.

Lemma insert_desc_perm (x : A * nat) t : Permutation (insert_desc x t) (x :: t).
Proof.
  induction t as [|y t IH]; simpl; [reflexivity|].
  destruct (snd x <? snd y)%nat.
  - rewrite IH. apply perm_swap.
  - reflexivity.
Qed.

Lemma sort_desc_perm (t : list (A * nat)) : Permutation (sort_desc t) t.
Proof.
  induction t as [|x t IH]; simpl; [reflexivity|].
  rewrite insert_desc_perm. now constructor.
Qed.

Lemma total_bump k t : total (bump eqbA k t) = S (total t).
Proof.
  unfold total. induction t as [|[k' n] t IH]; simpl; [reflexivity|].
  destruct (eqbA k k'); simpl; [reflexivity|].
  rewrite IH. lia.
Qed.

Lemma total_fold keys : forall t,
  total (fold_left (fun t k => bump eqbA k t) keys t)
  = (total t + length keys)%nat.
Proof.
  induction keys as [|k keys IH]; intros t; simpl; [lia|].
  rewrite IH, total_bump. lia.
Qed.

(** The counts of [value_counts] add up to the number of present cells. *)
Lemma total_value_counts (col : list (option A)) :
  total (value_counts eqbA col) = length (present col).
Proof.
  unfold value_counts.
  rewrite (total_perm _ _ (sort_desc_perm _)).
  unfold tally. rewrite total_fold. reflexivity.
Qed.

Lemma count_in_perm k (t t' : list (A * nat)) :
  Permutation t t' -> count_in eqbA k t = count_in eqbA k t'.
Proof.
  intros H. unfold count_in. apply list_sum_perm.
  apply Permutation_map.
  induction H; simpl.
  - reflexivity.
  - destruct (eqbA k (fst x)); [now constructor | assumption].
  - destruct (eqbA k (fst x)), (eqbA k (fst y));
      try reflexivity; apply perm_swap.
  - etransitivity; eassumption.
Qed.

Lemma count_in_bump k k' t :
  count_in eqbA k (bump eqbA k' t)
  = (count_in eqbA k t + if eqbA k k' then 1 else 0)%nat.
Proof.
  unfold count_in. induction t as [|[k'' n] t IH]; simpl.
  - destruct (eqbA k k'); reflexivity.
  - destruct (eqbA k' k'') eqn:E; simpl.
    + apply eqbA_spec in E. subst k''.
      destruct (eqbA k k'); simpl; lia.
    + destruct (eqbA k k''); simpl; rewrite IH; lia.
Qed.

Lemma count_in_fold k keys : forall t,
  count_in eqbA k (fold_left (fun t k => bump eqbA k t) keys t)
  = (count_in eqbA k t + occ eqbA k keys)%nat.
Proof.
  unfold occ.
  induction keys as [|k' keys IH]; intros t; simpl; [lia|].
  rewrite IH, count_in_bump.
  destruct (eqbA k k'); simpl; lia.
Qed.

(** The count [value_counts] gives to a value is the number of cells
    holding it. *)
Lemma count_in_value_counts k (col : list (option A)) :
  count_in eqbA k (value_counts eqbA col) = occ eqbA k (present col).
Proof.
  unfold value_counts.
  rewrite (count_in_perm k _ _ (sort_desc_perm _)).
  unfold tally. rewrite count_in_fold. reflexivity.
Qed.

Lemma occ_app k l1 l2 : occ eqbA k (l1 ++ l2) = (occ eqbA k l1 + occ eqbA k l2)%nat.
Proof. unfold occ. now rewrite filter_app, length_app. Qed.

Lemma present_app (c1 c2 : list (option A)) :
  present (c1 ++ c2) = present c1 ++ present c2.
Proof. unfold present. apply flat_map_app. Qed.

(** Every value is listed once. *)
Lemma bump_keys k t :
  map fst (bump eqbA k t) = map fst t \/
  (~ In k (map fst t) /\ map fst (bump eqbA k t) = map fst t ++ [k]).
Proof.
  induction t as [|[k' n] t IH]; simpl.
  - right. split; [tauto | reflexivity].
  - destruct (eqbA k k') eqn:E; simpl.
    + now left.
    + destruct IH as [IH | [Hn IH]].
      * left. now rewrite IH.
      * right. split; [|now rewrite IH].
        intros [H | H]; [|tauto].
        subst k'. rewrite eqbA_refl in E. discriminate.
Qed.

Lemma NoDup_snoc (l : list A) k : NoDup l -> ~ In k l -> NoDup (l ++ [k]).
Proof.
  intros Hl Hk.
  apply (Permutation_NoDup (l := k :: l)).
  - apply Permutation_cons_append.
  - now constructor.
Qed.

Lemma NoDup_fold keys : forall t,
  NoDup (map fst t) ->
  NoDup (map fst (fold_left (fun t k => bump eqbA k t) keys t)).
Proof.
  induction keys as [|k keys IH]; intros t Ht; simpl; [assumption|].
  apply IH. destruct (bump_keys k t) as [E | [Hn E]]; rewrite E.
  - assumption.
  - now apply NoDup_snoc.
Qed.

Lemma NoDup_value_counts (col : list (option A)) :
  NoDup (map fst (value_counts eqbA col)).
Proof.
  unfold value_counts.
  eapply Permutation_NoDup.
  - apply Permutation_map. symmetry. apply sort_desc_perm.
  - apply NoDup_fold. constructor.
Qed.

(** The table comes out by decreasing count. *)
Lemma insert_desc_sorted (x : A * nat) t :
  StronglySorted (fun a b : A * nat => (snd b <= snd a)%nat) t ->
  StronglySorted (fun a b : A * nat => (snd b <= snd a)%nat) (insert_desc x t).
Proof.
  induction 1 as [|y t Ht IH Hy]; simpl.
  - repeat constructor.
  - destruct (snd x <? snd y)%nat eqn:E.
    + apply Nat.ltb_lt in E. constructor; [assumption|].
      eapply Permutation_Forall;
        [symmetry; apply insert_desc_perm|].
      constructor; [lia | assumption].
    + apply Nat.ltb_ge in E. constructor.
      * now constructor.
      * constructor; [assumption|].
        eapply Forall_impl; [|exact Hy]. simpl. intros; lia.
Qed.

Lemma value_counts_sorted (col : list (option A)) :
  StronglySorted (fun a b : A * nat => (snd b <= snd a)%nat)
    (value_counts eqbA col).
Proof.
  unfold value_counts, sort_desc.
  induction (tally eqbA (present col)) as [|x t IH]; simpl.
  - constructor.
  - now apply insert_desc_sorted.
Qed.
End ValueCountsFacts.

Lemma string_eqb_spec (a b : string) : String.eqb a b = true <-> a = b.
Proof. apply String.eqb_eq. Qed.

End PandasFacts.

(** ** Literal patterns and splitting *)

Module TextFacts.
Import Pandas Views.


Lemma match_here_lit (p s : string) :
  match_here (literal p) s = true <->
  exists b, s = p ++ b.
Proof.
  revert s. induction p as [|c p IH]; intros s; simpl.
  - split; [intros _; now exists s | reflexivity].
  - destruct s as [|d s]; simpl.
    + split; [discriminate | intros [b Hb]; discriminate].
    + rewrite andb_true_iff, IH, Ascii.eqb_eq. split.
      * intros [-> [b ->]]. now exists b.
      * intros [b Hb]. injection Hb as -> ->. split; [reflexivity | now exists b].
  Qed.

Lemma re_search_lit (p s : string) :
  re_search (literal p) s = true <-> Substring p s.
Proof.
  unfold Substring. induction s as [|c s IH].
  - simpl. rewrite orb_false_r, match_here_lit. split.
    + intros [b Hb]. now exists EmptyString, b.
    + intros [a [b H]]. destruct a; [now exists b | discriminate].
  - cbn [re_search]. rewrite orb_true_iff, match_here_lit, IH. split.
    + intros [[b Hb] | [a [b Hab]]].
      * now exists EmptyString, b.
      * exists (String c a), b. simpl. now rewrite Hab.
    + intros [a [b H]]. destruct a as [|c' a]; simpl in H.
      * left. now exists b.
      * right. injection H as _ H. now exists a, b.
Qed.

(** *** Splitting on comma-space *)

Lemma split_from_nonempty (s cur : string) : split_from cur s <> [].
Proof.
  revert cur. induction s as [|c s IH]; intros cur; simpl; [discriminate|].
  destruct s as [|d s']; [discriminate|].
  destruct (Ascii.eqb c "," && Ascii.eqb d " "); [discriminate | apply IH].
Qed.

Lemma append_assoc (a b c : string) : (a ++ b) ++ c = a ++ b ++ c.
Proof. induction a as [|x a IH]; simpl; [reflexivity | now rewrite IH]. Qed.

Lemma append_empty_r (a : string) : a ++ EmptyString = a.
Proof. induction a as [|x a IH]; simpl; [reflexivity | now rewrite IH]. Qed.

Lemma concat_cons (sep x : string) (l : list string) :
  l <> [] -> String.concat sep (x :: l) = x ++ sep ++ String.concat sep l.
Proof. destruct l; [congruence | reflexivity]. Qed.

Lemma split_from_step (cur : string) (c d : ascii) (s : string) :
  split_from cur (String c (String d s)) =
  if Ascii.eqb c "," && Ascii.eqb d " "
  then cur :: split_from EmptyString s
  else split_from (cur ++ String c EmptyString) (String d s).
Proof. reflexivity. Qed.

(** Joining the tokens with comma-space gives the text back. *)
Lemma concat_split_from (n : nat) : forall s cur,
  (String.length s <= n)%nat ->
  String.concat ", " (split_from cur s) = cur ++ s.
Proof.
  induction n as [|n IH]; intros s cur Hn.
  - destruct s; simpl in Hn; [|lia]. simpl. now rewrite append_empty_r.
  - destruct s as [|c s]; [simpl; now rewrite append_empty_r|].
    destruct s as [|d s'].
    + reflexivity.
    + rewrite split_from_step.
      destruct (Ascii.eqb c "," && Ascii.eqb d " ") eqn:E.
      * apply andb_prop in E. destruct E as [Ec Ed].
        apply Ascii.eqb_eq in Ec, Ed. subst c d.
        rewrite concat_cons by apply split_from_nonempty.
        rewrite IH by (simpl in Hn; lia). reflexivity.
      * rewrite IH by (simpl in Hn |- *; lia).
        now rewrite append_assoc.
Qed.

Lemma concat_split_comma (s : string) :
  String.concat ", " (split_comma s) = s.
Proof.
  unfold split_comma. now rewrite (concat_split_from (String.length s)).
Qed.

Lemma split_comma_nonempty (s : string) : split_comma s <> [].
Proof. apply split_from_nonempty. Qed.

(** *** No token holds a comma-space *)

Lemma re_search_has_sep (s : string) :
  re_search (literal ", ") s = has_sep s.
Proof.
  induction s as [|c s IH]; [reflexivity|].
  cbn [re_search]. rewrite IH. destruct s as [|d s']; simpl.
  - now rewrite andb_false_r.
  - now rewrite andb_true_r.
Qed.

Lemma has_sep_step (x y : ascii) (s : string) :
  has_sep (String x (String y s)) =
  Ascii.eqb x "," && Ascii.eqb y " " || has_sep (String y s).
Proof. reflexivity. Qed.

Lemma has_sep_snoc (cur : string) (c : ascii) :
  has_sep (cur ++ String c EmptyString) =
  has_sep cur || (ends_comma cur && Ascii.eqb c " ").
Proof.
  induction cur as [|x cur IH]; [reflexivity|].
  destruct cur as [|y cur'].
  - simpl. now rewrite !orb_false_r.
  - cbn [append] in *. rewrite !(has_sep_step x y), IH.
    change (ends_comma (String x (String y cur')))
      with (ends_comma (String y cur')).
    now rewrite orb_assoc.
Qed.

Lemma ends_comma_snoc (cur : string) (c : ascii) :
  ends_comma (cur ++ String c EmptyString) = Ascii.eqb c ",".
Proof.
  induction cur as [|x cur IH]; [reflexivity|].
  destruct cur as [|y cur']; [reflexivity|]. exact IH.
Qed.

Lemma split_from_no_sep (n : nat) : forall s cur,
  (String.length s <= n)%nat ->
  has_sep cur = false ->
  ends_comma cur && starts_space s = false ->
  Forall (fun t => has_sep t = false) (split_from cur s).
Proof.
  induction n as [|n IH]; intros s cur Hn Hcur Hedge.
  - destruct s; simpl in Hn; [|lia]. now repeat constructor.
  - destruct s as [|c s]; [now repeat constructor|].
    destruct s as [|d s'].
    + simpl. repeat constructor. rewrite has_sep_snoc, Hcur. exact Hedge.
    + rewrite split_from_step.
      destruct (Ascii.eqb c "," && Ascii.eqb d " ") eqn:E.
      * constructor; [assumption|].
        apply IH; [simpl in Hn; lia | reflexivity | reflexivity].
      * apply IH.
        -- simpl in Hn |- *. lia.
        -- rewrite has_sep_snoc, Hcur. exact Hedge.
        -- rewrite ends_comma_snoc. exact E.
Qed.

Lemma split_comma_no_sep (s : string) :
  Forall (fun t => ~ Substring ", " t) (split_comma s).
Proof.
  eapply Forall_impl;
    [|apply (split_from_no_sep (String.length s) s EmptyString);
      [apply Nat.le_refl | reflexivity | reflexivity]].
  intros t Ht Hsub. apply re_search_lit in Hsub.
  rewrite re_search_has_sep in Hsub. congruence.
Qed.

End TextFacts.

(** ** The filters of the callback, row by row *)

Module FilterFacts.
Import Pandas App Views PandasFacts TextFacts.
Local Open Scope list_scope.

Lemma filter_years_filter (selected_years : Z * Z) (df : DataFrame) :
  filter_years selected_years df = filter (in_years selected_years) df.
Proof.
  unfold filter_years, col_ge, col_le.
  rewrite !map_map, mask_and_map, select_map.
  apply filter_ext. intros r. unfold in_years.
  destruct (release_year r); reflexivity.
Qed.

Lemma filter_type_filter (selected_type : string) (df : DataFrame) :
  filter_type selected_type df = filter (of_type selected_type) df.
Proof.
  unfold filter_type, of_type, col_eq.
  destruct (String.eqb selected_type "All"); simpl.
  - induction df as [|r df IH]; simpl; [reflexivity | now rewrite <- IH].
  - now rewrite map_map, select_map.
Qed.

Lemma filter_true {R : Type} (l : list R) : filter (fun _ => true) l = l.
Proof. induction l as [|x l IH]; simpl; [reflexivity | now rewrite IH]. Qed.

Lemma filter_country_filter (selected_country : string) (df : DataFrame) :
  filter_country selected_country df =
  match country_test selected_country with
  | Some q => Some (filter q df)
  | None => None
  end.
Proof.
  unfold filter_country, country_test, str_contains.
  destruct (String.eqb selected_country "All").
  - now rewrite filter_true.
  - destruct (re_compile selected_country) as [p|]; [|reflexivity].
    now rewrite map_map, select_map.
Qed.

(** The local [filtered_df]: the rows of [df] passing the three tests, in
    the order of [df]. *)
Lemma filtered_filter (df : DataFrame) (selected_years : Z * Z)
    (selected_type selected_country : string) :
  filtered_df df selected_years selected_type selected_country =
  match country_test selected_country with
  | Some q =>
      Some (filter (fun r => in_years selected_years r
                             && of_type selected_type r && q r) df)
  | None => None
  end.
Proof.
  unfold filtered_df.
  rewrite filter_country_filter, filter_type_filter, filter_years_filter.
  destruct (country_test selected_country) as [q|]; [|reflexivity].
  rewrite !filter_filter. f_equal. apply filter_ext.
  intros r. now rewrite andb_assoc.
Qed.

Lemma in_years_iff (lo hi : Z) (r : ERow) :
  in_years (lo, hi) r = true <->
  exists y, release_year r = Some y /\ (lo <= y <= hi)%Z.
Proof.
  unfold in_years. simpl. destruct (release_year r) as [y|].
  - rewrite andb_true_iff, !Z.leb_le. split.
    + intros H. now exists y.
    + intros [y' [E H]]. now injection E as ->.
  - split; [discriminate | intros [y [E _]]; discriminate].
Qed.

(** Counts of a column of the filtered table, value by value. *)
Lemma occ_present_map {R A : Type} (eqbA : A -> A -> bool) (f : R -> option A)
    (k : A) (l : list R) :
  occ eqbA k (present (map f l)) =
  length (filter (fun r => match f r with
                           | Some a => eqbA k a
                           | None => false
                           end) l).
Proof.
  unfold occ. induction l as [|r l IH]; simpl; [reflexivity|].
  destruct (f r) as [a|]; simpl; [|assumption].
  destruct (eqbA k a); simpl; now rewrite IH.
Qed.

Lemma count_type (t : string) (fdf : DataFrame) :
  count_in String.eqb t (type_counts fdf) =
  length (filter (fun r => String.eqb t (type r)) fdf).
Proof.
  unfold type_counts.
  rewrite (count_in_value_counts _ string_eqb_spec), occ_present_map.
  reflexivity.
Qed.

Lemma count_genre (g : string) (fdf : DataFrame) :
  count_in String.eqb g (genre_value_counts fdf) =
  length (filter (fun r => match genres r with
                           | Some g' => String.eqb g g'
                           | None => false
                           end) fdf).
Proof.
  unfold genre_value_counts.
  now rewrite (count_in_value_counts _ string_eqb_spec), occ_present_map.
Qed.

(** *** The genre explode *)

Lemma load_per_record (raw : list RawRow) :
  load raw = flat_map (fun r => load [r]) raw.
Proof.
  unfold load, explode_genres, explode.
  induction raw as [|r raw IH]; simpl; [reflexivity|].
  rewrite IH, app_nil_r. reflexivity.
Qed.

Lemma load_one (r : RawRow) :
  load [r] =
  match raw_listed_in r with
  | None => [with_genres (clean r) None]
  | Some s => map (fun g => with_genres (clean r) (Some g)) (split_comma s)
  end.
Proof.
  unfold load, explode_genres, explode. simpl. rewrite app_nil_r.
  destruct (raw_listed_in r) as [s|]; simpl; [|reflexivity].
  pose proof (split_comma_nonempty s) as H.
  destruct (split_comma s); [congruence | reflexivity].
Qed.

Lemma length_present_map {R A : Type} (f : R -> option A) (l : list R) :
  length (present (map f l)) = length (dropna f l).
Proof.
  unfold present, dropna. induction l as [|r l IH]; simpl; [reflexivity|].
  destruct (f r); simpl; now rewrite IH.
Qed.

(** *** Filtering the exploded table, record by record *)

(** A test that does not read [genres] keeps all the rows of a record or
    none. *)
Lemma filter_load (q : ERow -> bool) (raw : list RawRow) :
  (forall r g, q (with_genres (clean r) g) = q (base_row r)) ->
  filter q (load raw) =
  flat_map (fun r => if q (base_row r) then load [r] else []) raw.
Proof.
  intros Hq. rewrite load_per_record.
  induction raw as [|r raw IH]; simpl; [reflexivity|].
  rewrite filter_app, IH. f_equal.
  rewrite load_one. destruct (raw_listed_in r) as [s|].
  - induction (split_comma s) as [|g l IHl]; simpl.
    + now destruct (q (base_row r)).
    + rewrite Hq, IHl. now destruct (q (base_row r)).
  - simpl. fold (base_row r). now destruct (q (base_row r)).
Qed.

Lemma filtered_load (raw : list RawRow) (selected_years : Z * Z)
    (selected_type selected_country : string) (fdf : DataFrame) :
  filtered_df (load raw) selected_years selected_type selected_country = Some fdf ->
  exists keep : RawRow -> bool,
    fdf = flat_map (fun r => if keep r then load [r] else []) raw.
Proof.
  rewrite filtered_filter.
  destruct (country_test selected_country) as [q|] eqn:E; [|discriminate].
  intros H. injection H as <-.
  exists (fun r => in_years selected_years (base_row r)
                   && of_type selected_type (base_row r) && q (base_row r)).
  apply (filter_load
           (fun row => in_years selected_years row
                       && of_type selected_type row && q row)).
  intros r g. unfold country_test in E.
  destruct (String.eqb selected_country "All").
  - injection E as <-. reflexivity.
  - destruct (re_compile selected_country); [|discriminate].
    injection E as <-. reflexivity.
Qed.

Lemma length_load_one (r : RawRow) : length (load [r]) = rows_of r.
Proof.
  rewrite load_one. unfold rows_of.
  destruct (raw_listed_in r); [apply length_map | reflexivity].
Qed.

Lemma genre_rows_load_one (r : RawRow) :
  length (dropna genres (load [r])) = tokens_of r.
Proof.
  rewrite load_one. unfold tokens_of, dropna.
  destruct (raw_listed_in r) as [s|]; [|reflexivity].
  induction (split_comma s) as [|g l IH]; simpl; [reflexivity | now rewrite IH].
Qed.

Lemma length_flat_map_if {R S : Type} (keep : R -> bool) (f : R -> list S)
    (l : list R) :
  length (flat_map (fun r => if keep r then f r else []) l) =
  list_sum (map (fun r => if keep r then length (f r) else 0%nat) l).
Proof.
  induction l as [|r l IH]; simpl; [reflexivity|].
  rewrite length_app, IH. now destruct (keep r).
Qed.

Lemma filter_flat_map_if {R S : Type} (p : S -> bool) (keep : R -> bool)
    (f : R -> list S) (l : list R) :
  filter p (flat_map (fun r => if keep r then f r else []) l) =
  flat_map (fun r => if keep r then filter p (f r) else []) l.
Proof.
  induction l as [|r l IH]; simpl; [reflexivity|].
  rewrite filter_app, IH. now destruct (keep r).
Qed.

(** The type counts of chart 1 add up to the number of rows of the
    filtered table, and that number is the sum, over the records kept, of
    the rows the explode gave each of them; the rows with a genre are as
    many as the genre tokens of the records kept. *)
Lemma rows_per_record (raw : list RawRow) (selected_years : Z * Z)
    (selected_type selected_country : string) (fdf : DataFrame) :
  filtered_df (load raw) selected_years selected_type selected_country = Some fdf ->
  exists keep : RawRow -> bool,
    total (type_counts fdf) =
      list_sum (map (fun r => if keep r then rows_of r else 0%nat) raw) /\
    length (dropna genres fdf) =
      list_sum (map (fun r => if keep r then tokens_of r else 0%nat) raw).
Proof.
  intros H. destruct (filtered_load _ _ _ _ _ H) as [keep ->].
  exists keep. split.
  - unfold type_counts. rewrite total_value_counts, length_present_map.
    unfold dropna. rewrite filter_true, length_flat_map_if.
    f_equal. apply map_ext. intros r. now rewrite length_load_one.
  - unfold dropna. rewrite filter_flat_map_if, length_flat_map_if.
    f_equal. apply map_ext. intros r. now rewrite <- genre_rows_load_one.
Qed.

(** When the preparation does not raise, its table is [load]. *)
Lemma prepare_load (raw : list RawRow) (df : DataFrame) :
  prepare raw = inl df -> df = load raw.
Proof.
  unfold prepare.
  destruct (negb (has_str_accessor (map raw_duration raw))); [discriminate|].
  destruct (negb (has_str_accessor (map raw_listed_in raw))); [discriminate|].
  intros H. now injection H.
Qed.

End FilterFacts.

(** ** Tables of counts *)

Module CountFacts.
Import Pandas App Startup Views PandasFacts TextFacts FilterFacts.
Local Open Scope list_scope.

Section Entries.
Context {A : Type} (eqbA : A -> A -> bool).
Hypothesis eqbA_spec : forall a b, eqbA a b = true <-> a = b.

Lemma eqbA_false (a b : A) : a <> b -> eqbA a b = false.
Proof.
  intros H. destruct (eqbA a b) eqn:E; [|reflexivity].
  now apply eqbA_spec in E.
Qed.

Lemma in_keys_bump (x k : A) (t : list (A * nat)) :
  In x (map fst (bump eqbA k t)) <-> x = k \/ In x (map fst t).
Proof.
  induction t as [|[k' n] t IH]; simpl.
  - split; [intros [<- | []]; now left | intros [-> | []]; now left].
  - destruct (eqbA k k') eqn:E; simpl.
    + apply eqbA_spec in E. subst k'. split; [tauto|].
      intros [-> | H]; [now left | exact H].
    + rewrite IH. tauto.
Qed.

Lemma in_keys_fold (x : A) (keys : list A) : forall t,
  In x (map fst (fold_left (fun t k => bump eqbA k t) keys t)) <->
  In x (map fst t) \/ In x keys.
Proof.
  induction keys as [|k keys IH]; intros t; simpl; [tauto|].
  rewrite IH, in_keys_bump. split.
  - intros [[-> | H] | H]; [right; now left | now left | right; now right].
  - intros [H | [-> | H]]; [left; now right | left; now left | now right].
Qed.

Lemma count_in_absent (k : A) (t : list (A * nat)) :
  ~ In k (map fst t) -> count_in eqbA k t = 0%nat.
Proof.
  unfold count_in. induction t as [|[k' n] t IH]; simpl; [reflexivity|].
  intros H. rewrite eqbA_false by (intros ->; apply H; now left).
  apply IH. intros Hin. apply H. now right.
Qed.

Lemma count_in_entry (k : A) (n : nat) (t : list (A * nat)) :
  NoDup (map fst t) -> In (k, n) t -> count_in eqbA k t = n.
Proof.
  induction t as [|[k' n'] t IH]; simpl; [tauto|].
  intros Hnd. apply NoDup_cons_iff in Hnd. destruct Hnd as [Hk' Hnd].
  intros [E | Hin].
  - injection E as -> ->. unfold count_in. simpl.
    rewrite (proj2 (eqbA_spec k k) eq_refl). simpl.
    pose proof (count_in_absent k t Hk') as H0. unfold count_in in H0.
    rewrite H0. lia.
  - unfold count_in. simpl. rewrite eqbA_false.
    + now apply IH.
    + intros ->. apply Hk'. apply in_map_iff. now exists (k', n).
Qed.

Lemma occ_in (k : A) (l : list A) : In k l <-> (0 < occ eqbA k l)%nat.
Proof.
  unfold occ. induction l as [|x l IH]; simpl; [split; [tauto | lia]|].
  destruct (eqbA k x) eqn:E; simpl.
  - apply eqbA_spec in E. subst x. split; [lia | now left].
  - rewrite <- IH. split; [|now right].
    intros [-> | H]; [|exact H].
    rewrite (proj2 (eqbA_spec k k) eq_refl) in E. discriminate.
Qed.

(** The entries of [value_counts]: one for each value present in the
    column, with the number of cells holding it. *)
Lemma value_counts_entry (k : A) (n : nat) (col : list (option A)) :
  In (k, n) (value_counts eqbA col) <->
  In k (present col) /\ n = occ eqbA k (present col).
Proof.
  assert (Hkeys : forall x, In x (map fst (value_counts eqbA col)) <->
                            In x (present col)).
  { intros x. unfold value_counts. split.
    - intros H.
      apply (Permutation_in _ (Permutation_map fst (sort_desc_perm _))) in H.
      unfold tally in H. apply in_keys_fold in H. now destruct H.
    - intros H.
      apply (Permutation_in _ (Permutation_sym
               (Permutation_map fst (sort_desc_perm _)))).
      unfold tally. apply in_keys_fold. now right. }
  split.
  - intros H. split.
    + apply Hkeys. apply in_map_iff. now exists (k, n).
    + rewrite <- (count_in_value_counts eqbA eqbA_spec).
      symmetry. apply count_in_entry; [apply NoDup_value_counts | exact H];
        exact eqbA_spec.
  - intros [Hin ->]. apply Hkeys in Hin. apply in_map_iff in Hin.
    destruct Hin as ([k' n] & E & Hin). simpl in E. subst k'.
    rewrite <- (count_in_value_counts eqbA eqbA_spec).
    rewrite (count_in_entry k n _
               (NoDup_value_counts eqbA eqbA_spec col) Hin).
    exact Hin.
Qed.

Lemma sorted_app_cross {B : Type} (R : B -> B -> Prop) (l1 l2 : list B) :
  StronglySorted R (l1 ++ l2) ->
  forall x y, In x l1 -> In y l2 -> R x y.
Proof.
  induction l1 as [|a l1 IH]; simpl; [tauto|].
  intros H x y [<- | Hx] Hy.
  - apply StronglySorted_inv in H. destruct H as [_ H].
    rewrite Forall_forall in H. apply H. apply in_or_app. now right.
  - apply StronglySorted_inv in H. destruct H as [H _]. now apply IH.
Qed.

(** The first [m] entries of [value_counts] are distinct values, each
    with its number of cells, and no value left out has more cells than
    one that is listed. *)
Lemma head_value_counts (m : nat) (col : list (option A)) :
  (length (head m (value_counts eqbA col)) <= m)%nat /\
  NoDup (map fst (head m (value_counts eqbA col))) /\
  (forall k n, In (k, n) (head m (value_counts eqbA col)) ->
     In k (present col) /\ n = occ eqbA k (present col)) /\
  (forall k n k', In (k, n) (head m (value_counts eqbA col)) ->
     ~ In k' (map fst (head m (value_counts eqbA col))) ->
     (occ eqbA k' (present col) <= n)%nat).
Proof.
  unfold head.
  pose proof (firstn_skipn m (value_counts eqbA col)) as Hsplit.
  assert (Hsub : forall e, In e (firstn m (value_counts eqbA col)) ->
                           In e (value_counts eqbA col)).
  { intros e He. rewrite <- Hsplit. apply in_or_app. now left. }
  split; [apply firstn_le_length|].
  split.
  { pose proof (NoDup_value_counts eqbA eqbA_spec col) as Hnd.
    rewrite <- Hsplit, map_app in Hnd.
    now apply NoDup_app_remove_r in Hnd. }
  split.
  { intros k n H. apply value_counts_entry. now apply Hsub. }
  intros k n k' Hk Hk'.
  destruct (occ eqbA k' (present col)) as [|n'] eqn:Eocc; [lia|].
  assert (Hin' : In k' (present col)) by (apply occ_in; lia).
  assert (He' : In (k', S n') (value_counts eqbA col))
    by (apply value_counts_entry; now split).
  rewrite <- Hsplit in He'. apply in_app_or in He'.
  destruct He' as [He' | He'].
  - exfalso. apply Hk'. apply in_map_iff. now exists (k', S n').
  - pose proof (value_counts_sorted eqbA col) as Hs.
    rewrite <- Hsplit in Hs.
    exact (sorted_app_cross _ _ _ Hs _ _ Hk He').
Qed.

End Entries.

End CountFacts.

(** ** The callback on the object store: what it reads and writes *)

Module StoreFacts.
Import Pandas App Store.
Local Open Scope list_scope.

Lemma exec_alloc (o : Obj) (h s : Heap) :
  alloc o (h ++ s) = Some (length h + length s, h ++ (s ++ [o])).
Proof. unfold alloc. now rewrite length_app, app_assoc. Qed.

Lemma exec_read_new (h s : Heap) (k : nat) :
  read (length h + k) (h ++ s) =
  match nth_error s k with
  | Some o => Some (o, h ++ s)
  | None => None
  end.
Proof.
  unfold read. rewrite nth_error_app2 by lia.
  now replace (length h + k - length h) with k by lia.
Qed.

Lemma exec_read_old (h s : Heap) (g : Ref) (o : Obj) :
  nth_error h g = Some o -> read g (h ++ s) = Some (o, h ++ s).
Proof.
  intros H. unfold read. rewrite nth_error_app1.
  - now rewrite H.
  - apply nth_error_Some. congruence.
Qed.

Lemma replace_app (h s : Heap) (k : nat) (o : Obj) :
  replace (length h + k) o (h ++ s) = h ++ replace k o s.
Proof. induction h as [|x h IH]; simpl; [reflexivity | now rewrite IH]. Qed.

Lemma exec_update_new (h s : Heap) (k : nat) (f : Obj -> option Obj) :
  update (length h + k) f (h ++ s) =
  match nth_error s k with
  | Some o =>
      match f o with
      | Some o' => Some (tt, h ++ replace k o' s)
      | None => None
      end
  | None => None
  end.
Proof.
  unfold update. rewrite nth_error_app2 by lia.
  replace (length h + k - length h) with k by lia.
  destruct (nth_error s k) as [o|]; [|reflexivity].
  destruct (f o); [|reflexivity]. now rewrite replace_app.
Qed.

(** One step of the program on a store [h ++ s] whose part [s], allocated
    since the call, is known. *)
Ltac exec_step H :=
  first [ rewrite exec_alloc
        | rewrite exec_read_new
        | rewrite (exec_read_old _ _ _ _ H)
        | rewrite exec_update_new ];
  cbn [length app nth_error replace Nat.add].

Ltac exec H :=
  unfold serve_request, update_dashboard_st, read_all, px_counts, px_groups,
    px_frame, update_figure, set_columns, read_frame, bind, ret, fail;
  repeat exec_step H.

(** A request served on a store in which [g] refers to the table [d]:
    the figures are those of the function [update_dashboard] on [d],
    whatever else the store holds, and the store afterwards is the store
    before followed by the objects of the call.  When
    [update_dashboard] has no result the call raises. *)
Lemma serve_request_spec (g : Ref) (h : Heap) (d : DataFrame) (q : Request) :
  nth_error h g = Some (OFrame d) ->
  match figures_for d q with
  | Some figs => exists fresh, serve_request g q h = Some (figs, h ++ fresh)
  | None => serve_request g q h = None
  end.
Proof.
  intros H. destruct q as [[years ty] c].
  unfold figures_for, update_dashboard, filtered_df, filter_country,
    filter_type, str_contains.
  unfold serve_request, update_dashboard_st, str_contains.
  destruct (String.eqb ty "All"), (String.eqb c "All");
    try destruct (re_compile c) as [p|];
    cbv beta iota; try eexists;
    rewrite <- (app_nil_r h) at 1; exec H; reflexivity.
Qed.

Lemma serve_request_grows (g : Ref) (h : Heap) (d : DataFrame) (q : Request)
    (figs : list Obj) (h' : Heap) :
  nth_error h g = Some (OFrame d) ->
  serve_request g q h = Some (figs, h') ->
  figures_for d q = Some figs /\ exists fresh, h' = h ++ fresh.
Proof.
  intros H E. pose proof (serve_request_spec g h d q H) as S.
  destruct (figures_for d q) as [figs0|].
  - destruct S as [fresh S]. rewrite S in E. injection E as <- <-.
    split; [reflexivity | now exists fresh].
  - rewrite S in E. discriminate.
Qed.

Lemma nth_error_grows (h fresh : Heap) (g : Ref) (o : Obj) :
  nth_error h g = Some o -> nth_error (h ++ fresh) g = Some o.
Proof.
  intros H. rewrite nth_error_app1; [exact H|].
  apply nth_error_Some. congruence.
Qed.

Lemma serve_all_grows (g : Ref) (d : DataFrame) (qs : list Request) :
  forall (h : Heap) (rs : list (list Obj)) (h1 : Heap),
    nth_error h g = Some (OFrame d) ->
    serve_all g qs h = Some (rs, h1) ->
    exists fresh, h1 = h ++ fresh.
Proof.
  induction qs as [|q qs IH]; intros h rs h1 H E.
  - injection E as <- <-. exists []. now rewrite app_nil_r.
  - cbn [serve_all] in E. unfold bind in E.
    destruct (serve_request g q h) as [[r h']|] eqn:Eq; [|discriminate].
    destruct (serve_request_grows g h d q r h' H Eq) as [_ [f1 ->]].
    destruct (serve_all g qs (h ++ f1)) as [[rs' h'']|] eqn:Es; [|discriminate].
    destruct (IH (h ++ f1) rs' h'' (nth_error_grows h f1 g _ H) Es) as [f2 ->].
    injection E as <- <-. exists (f1 ++ f2). now rewrite app_assoc.
Qed.

End StoreFacts.

(** ** The claims *)

Module Dashboard.
Import Pandas App Views Scenarios PandasFacts TextFacts FilterFacts CountFacts.
Local Open Scope list_scope.

(** C1. On the two records of the concrete scenario with filters
    ([2019, 2020], All, All) the callback returns the genre counts
    Comedy 2, Drama 1, and the type counts TV Show 2, Movie 1: the show
    is counted once for each of its two genres. *)
Theorem scenario_counts :
  counts_1_2 (update_dashboard (load scenario) (2019, 2020)%Z "All" "All")
  = Some ([("TV Show", 2); ("Movie", 1)], [("Comedy", 2); ("Drama", 1)]).
Proof. vm_compute. reflexivity. Qed.

(** C2. Charts 1, 3, 4 and 5 are computed from the genre-exploded table:
    a single show with two genres is counted twice in the type counts,
    twice in the timeline, gives two scatter points and counts twice for
    its country. *)
Theorem charts_count_exploded_rows :
  counts_1_3_4_5
    (update_dashboard (load [two_genre_show]) (2020, 2020)%Z "All" "All")
  = Some ([("TV Show", 2)], [((2021%Z, "TV Show"), 2)], 2, [("USA", 2)]).
Proof. vm_compute. reflexivity. Qed.

(** C3. The country options are counted on the genre-exploded table, one
    count per (record, genre) row: in [skewed] the country of a single
    three-genre title is among the options and pushes out a country with
    two titles, while the ten most frequent values counted per record are
    the ten countries with two titles or more. *)
Theorem country_options_count_exploded_rows :
  country_options (load skewed) =
    ["All"; "Brazil"; "Canada"; "Egypt"; "France"; "India";
     "Japan"; "Mexico"; "Spain"; "Turkey"; "Kenya"]
  /\ map fst (head 10 (record_country_counts skewed)) =
    ["Brazil"; "Canada"; "Egypt"; "France"; "India";
     "Japan"; "Mexico"; "Spain"; "Turkey"; "USA"]
  /\ count_in String.eqb "Kenya" (record_country_counts skewed) = 1%nat
  /\ count_in String.eqb "Kenya" (country_value_counts (load skewed)) = 3%nat.
Proof. vm_compute. repeat split; reflexivity. Qed.

(** C4, as stated, fails: a record whose [listed_in] is absent is not
    dropped by the explode; it stays as one row, with an absent [genres]
    cell.  The table of [unlisted] and [movie_2019] is one the program
    loads. *)
Lemma unlisted_record_keeps_a_row :
  prepare [unlisted; movie_2019] = inl (load [unlisted; movie_2019]) /\
  raw_listed_in unlisted = None /\
  load [unlisted; movie_2019]
    = [with_genres (clean unlisted) None;
       with_genres (clean movie_2019) (Some "Comedy")] /\
  ~ (forall raw df,
       prepare raw = inl df ->
       df = flat_map
              (fun r => match raw_listed_in r with
                        | None => []
                        | Some s =>
                            map (fun g => with_genres (clean r) (Some g))
                              (split_comma s)
                        end) raw).
Proof.
  split; [reflexivity|]. split; [reflexivity|]. split; [reflexivity|].
  intros H.
  specialize (H [unlisted; movie_2019] (load [unlisted; movie_2019]) eq_refl).
  discriminate.
Qed.

(** C4, amended. The exploded table that the program loads is the
    concatenation, record by record, of the rows of each record: a record
    whose [listed_in] is absent gives exactly one row, with an absent
    [genres] cell; a record whose [listed_in] is present gives one row
    per token of its split on comma-space, in order, each a copy of the
    record with that token as [genres]; the tokens joined by comma-space
    are the [listed_in] text, and no token holds a comma-space. *)
Theorem explode_rows_per_record (raw : list RawRow) (df : DataFrame) :
  prepare raw = inl df ->
  df = flat_map
         (fun r => match raw_listed_in r with
                   | None => [with_genres (clean r) None]
                   | Some s =>
                       map (fun g => with_genres (clean r) (Some g))
                         (split_comma s)
                   end) raw /\
  length df = list_sum (map rows_of raw) /\
  (forall s, String.concat ", " (split_comma s) = s /\
             Forall (fun t => ~ Substring ", " t) (split_comma s)).
Proof.
  intros H. apply prepare_load in H. subst df.
  split; [|split].
  - rewrite load_per_record. apply flat_map_ext. intros r. apply load_one.
  - rewrite load_per_record, length_flat_map. f_equal.
    apply map_ext. intros r. apply length_load_one.
  - intros s. split; [apply concat_split_comma | apply split_comma_no_sep].
Qed.

Lemma explode_rows_per_record_witness :
  load [unlisted; movie_2019]
  = flat_map
      (fun r => match raw_listed_in r with
                | None => [with_genres (clean r) None]
                | Some s =>
                    map (fun g => with_genres (clean r) (Some g))
                      (split_comma s)
                end) [unlisted; movie_2019] /\
  length (load [unlisted; movie_2019])
  = list_sum (map rows_of [unlisted; movie_2019]).
Proof.
  destruct (explode_rows_per_record [unlisted; movie_2019]
              (load [unlisted; movie_2019]) eq_refl) as (H1 & H2 & _).
  split; [exact H1 | exact H2].
Defined.

(** *** The year filter *)

(** C5. The year filter keeps exactly the rows whose [release_year] is
    present and lies in the selected range, both ends included (same
    rows, same order); a row without [release_year] is never kept, and
    every row of the filtered table of the callback has a [release_year]
    in the range. *)
Theorem year_filter_keeps_exactly (lo hi : Z) (df : DataFrame) :
  filter_years (lo, hi) df = filter (in_years (lo, hi)) df /\
  (forall r, in_years (lo, hi) r = true <->
             exists y, release_year r = Some y /\ (lo <= y <= hi)%Z) /\
  (forall r, release_year r = None -> ~ In r (filter_years (lo, hi) df)) /\
  (forall ty c fdf r,
     filtered_df df (lo, hi) ty c = Some fdf -> In r fdf ->
     exists y, release_year r = Some y /\ (lo <= y <= hi)%Z).
Proof.
  split; [apply filter_years_filter|].
  split; [intros r; apply in_years_iff|].
  split.
  - intros r Hr Hin. rewrite filter_years_filter in Hin.
    apply filter_In in Hin. destruct Hin as [_ Hin].
    apply in_years_iff in Hin. destruct Hin as [y [E _]]. congruence.
  - intros ty c fdf r Hf Hin. rewrite filtered_filter in Hf.
    destruct (country_test c) as [q|]; [|discriminate].
    injection Hf as <-. apply filter_In in Hin. destruct Hin as [_ Hin].
    apply andb_prop in Hin. destruct Hin as [Hin _].
    apply andb_prop in Hin. destruct Hin as [Hin _].
    now apply in_years_iff.
Qed.

Lemma year_filter_keeps_exactly_witness :
  ~ In (with_genres (clean no_year) (Some "Comedy"))
       (filter_years (2019, 2020)%Z (load [no_year; movie_2019])).
Proof.
  apply (proj1 (proj2 (proj2
           (year_filter_keeps_exactly 2019 2020
              (load [no_year; movie_2019]))))).
  reflexivity.
Defined.

(** *** The country filter *)




(** The two instances named with the claim, evaluated. *)
Lemma country_filter_examples :
  filter_country "Canada"
    (load [from_country (Some "United States, Canada");
           from_country (Some "India")])
    = Some (load [from_country (Some "United States, Canada")]) /\
  filter_country "India"
    (map (fun r => with_country r None) (load [from_country (Some "India")]))
    = Some [].
Proof. vm_compute. split; reflexivity. Qed.

(** In the loaded table no country cell is absent: an absent raw
    country is the text [Unknown], which the filter [Unknown] keeps. *)
Lemma absent_raw_country_is_unknown :
  map country (load [from_country None]) = [Some "Unknown"] /\
  filter_country "Unknown" (load [from_country None])
    = Some (load [from_country None]).
Proof. vm_compute. split; reflexivity. Qed.

(** *** Genre counts *)

Lemma total_firstn {A : Type} (n : nat) (t : list (A * nat)) :
  (total (firstn n t) <= total t)%nat.
Proof.
  unfold total. revert n. induction t as [|x t IH]; intros [|n]; simpl; try lia.
  specialize (IH n). lia.
Qed.

(** C7. For every filtered table, the genre counts of chart 2 before the
    cut to the first ten add up to the number of rows of the table that
    carry a genre, that is, to the number of (record, genre) pairs in it;
    the ten displayed counts add up to no more. *)
Theorem genre_counts_conserved (df : DataFrame) (selected_years : Z * Z)
    (selected_type selected_country : string) (fdf : DataFrame) :
  filtered_df df selected_years selected_type selected_country = Some fdf ->
  total (genre_value_counts fdf) = length (dropna genres fdf) /\
  (total (genre_counts fdf) <= total (genre_value_counts fdf))%nat.
Proof.
  intros _. split.
  - unfold genre_value_counts.
    now rewrite total_value_counts, length_present_map.
  - apply total_firstn.
Qed.

Lemma genre_counts_conserved_witness :
  total (genre_value_counts (load scenario)) = length (dropna genres (load scenario)) /\
  (total (genre_counts (load scenario))
   <= total (genre_value_counts (load scenario)))%nat.
Proof.
  apply (genre_counts_conserved (load scenario) (2019, 2020)%Z "All" "All").
  reflexivity.
Defined.

(** *** Narrowing the filters *)

Lemma filtered_for_narrower (df : DataFrame) (f1 f2 : Request)
    (fdf1 : DataFrame) :
  narrower f1 f2 ->
  filtered_for df f1 = Some fdf1 ->
  exists p1 p2,
    fdf1 = filter p1 df /\
    filtered_for df f2 = Some (filter p2 df) /\
    forall r, p1 r = true -> p2 r = true.
Proof.
  destruct f1 as [[[lo1 hi1] ty1] c1], f2 as [[[lo2 hi2] ty2] c2].
  simpl. intros (Hlo & Hhi & Hty & Hc) H1.
  rewrite filtered_filter in H1. rewrite filtered_filter.
  destruct (country_test c1) as [q1|] eqn:E1; [|discriminate].
  injection H1 as <-.
  assert (Hq : exists q2, country_test c2 = Some q2 /\
                          forall r, q1 r = true -> q2 r = true).
  { destruct Hc as [<- | ->].
    - exists q1. now split.
    - exists (fun _ => true). now split. }
  destruct Hq as (q2 & E2 & Hq). rewrite E2.
  eexists; eexists. split; [reflexivity|]. split; [reflexivity|].
  intros r H. apply andb_prop in H. destruct H as [H Hq1].
  apply andb_prop in H. destruct H as [Hy Ht].
  rewrite (Hq r Hq1), andb_true_r. apply andb_true_intro. split.
  - apply in_years_iff in Hy. destruct Hy as (y & E & Hr). simpl in *.
    apply in_years_iff. exists y. split; [assumption | lia].
  - unfold of_type in *. destruct Hty as [<- | ->]; [assumption|].
    reflexivity.
Qed.

(** C8. If [f1] selects within [f2], every row of the filtered table under
    [f1] is a row of the filtered table under [f2], and each type count
    of chart 1 under [f1] is at most the count of that type under [f2]. *)
Theorem narrowing_is_monotone (df : DataFrame) (f1 f2 : Request)
    (fdf1 : DataFrame) :
  narrower f1 f2 ->
  filtered_for df f1 = Some fdf1 ->
  exists fdf2,
    filtered_for df f2 = Some fdf2 /\
    (forall r, In r fdf1 -> In r fdf2) /\
    (forall t, (count_in String.eqb t (type_counts fdf1)
                <= count_in String.eqb t (type_counts fdf2))%nat).
Proof.
  intros Hn H1.
  destruct (filtered_for_narrower df f1 f2 fdf1 Hn H1)
    as (p1 & p2 & -> & E2 & Himp).
  exists (filter p2 df). split; [assumption|]. split.
  - intros r Hr. apply filter_In in Hr. apply filter_In.
    destruct Hr as [Hin Hp]. split; [assumption | now apply Himp].
  - intros t. rewrite !count_type, !filter_filter.
    apply filter_length_mono. intros r _ H.
    apply andb_prop in H. destruct H as [Hp Ht].
    now rewrite (Himp r Hp), Ht.
Qed.

Lemma narrowing_is_monotone_witness :
  exists fdf2,
    filtered_for (load scenario) ((2019, 2020)%Z, "All", "All") = Some fdf2 /\
    (forall r, In r (load [movie_2019]) -> In r fdf2) /\
    (forall t, (count_in String.eqb t (type_counts (load [movie_2019]))
                <= count_in String.eqb t (type_counts fdf2))%nat).
Proof.
  apply (narrowing_is_monotone (load scenario)
           ((2019, 2019)%Z, "Movie", "India") ((2019, 2020)%Z, "All", "All")).
  - simpl. repeat split; try lia; now right.
  - vm_compute. reflexivity.
Defined.

(** *** Requests in sequence *)

(** C9. Served on a store in which [g] refers to the table [d], a request
    gets the figures that the function [update_dashboard] computes from
    [d] and the request alone, whatever else the store holds, and the
    objects of the store before the call, the global table among them,
    are unchanged after it (the call only adds objects).  Hence the same
    request served again returns the same five figures, and so does a
    request served after any earlier requests. *)
Theorem recompute_is_stateless (g : Store.Ref) (h : Store.Heap)
    (d : DataFrame) :
  nth_error h g = Some (Store.OFrame d) ->
  (forall q,
     match Store.figures_for d q with
     | Some figs =>
         exists fresh, Store.serve_request g q h = Some (figs, h ++ fresh)
     | None => Store.serve_request g q h = None
     end) /\
  (forall q figs h',
     Store.serve_request g q h = Some (figs, h') ->
     nth_error h' g = Some (Store.OFrame d) /\
     exists h'', Store.serve_request g q h' = Some (figs, h'')) /\
  (forall earlier rs h1,
     Store.serve_all g earlier h = Some (rs, h1) ->
     nth_error h1 g = Some (Store.OFrame d) /\
     forall q, option_map fst (Store.serve_request g q h1)
               = option_map fst (Store.serve_request g q h)).
Proof.
  intros H.
  assert (Hsame : forall h1, nth_error h1 g = Some (Store.OFrame d) ->
            forall q, option_map fst (Store.serve_request g q h1)
                      = option_map fst (Store.serve_request g q h)).
  { intros h1 H1 q.
    pose proof (StoreFacts.serve_request_spec g h d q H) as S.
    pose proof (StoreFacts.serve_request_spec g h1 d q H1) as S1.
    destruct (Store.figures_for d q) as [figs|].
    - destruct S as [f S]. destruct S1 as [f1 S1]. now rewrite S, S1.
    - now rewrite S, S1. }
  split; [|split].
  - intros q. now apply StoreFacts.serve_request_spec.
  - intros q figs h' E.
    destruct (StoreFacts.serve_request_grows g h d q figs h' H E)
      as [Hf [fresh ->]].
    pose proof (StoreFacts.nth_error_grows h fresh g _ H) as H'.
    split; [exact H'|].
    pose proof (StoreFacts.serve_request_spec g (h ++ fresh) d q H') as S.
    rewrite Hf in S. destruct S as [f2 S]. now exists ((h ++ fresh) ++ f2).
  - intros earlier rs h1 E.
    destruct (StoreFacts.serve_all_grows g d earlier h rs h1 H E) as [fresh ->].
    pose proof (StoreFacts.nth_error_grows h fresh g _ H) as H'.
    split; [exact H' | now apply Hsame].
Qed.

Lemma recompute_is_stateless_witness :
  exists fresh,
    Store.serve_request 0 ((2019, 2020)%Z, "All", "All")
      [Store.OFrame (load scenario)]
    = Some (Store.styled (charts (load scenario)),
            [Store.OFrame (load scenario)] ++ fresh).
Proof.
  exact (proj1 (recompute_is_stateless 0 [Store.OFrame (load scenario)]
                  (load scenario) eq_refl)
               ((2019, 2020)%Z, "All", "All")).
Defined.

(** *** Rows without [year_added] *)

(** After the load, [year_added] is absent exactly when [date_added] was
    missing or did not parse. *)
Lemma year_added_absent (r : RawRow) :
  Forall (fun row => year_added row = None <->
                     forall d, raw_date_added r <> Parsed d) (load [r]).
Proof.
  rewrite load_one.
  assert (H : year_added (clean r) = None <->
              forall d, raw_date_added r <> Parsed d).
  { simpl. destruct (raw_date_added r) as [d| |]; simpl.
    - split; [discriminate | intros H; now destruct (H d)].
    - split; [intros _ d; discriminate | reflexivity].
    - split; [intros _ d; discriminate | reflexivity]. }
  destruct (raw_listed_in r) as [s|].
  - apply Forall_forall. intros row Hin. apply in_map_iff in Hin.
    destruct Hin as (g & <- & _). exact H.
  - constructor; [exact H | constructor].
Qed.

Lemma exploded_countries_app (l1 l2 : DataFrame) :
  exploded_countries (l1 ++ l2) = exploded_countries l1 ++ exploded_countries l2.
Proof. unfold exploded_countries, explode. apply flat_map_app. Qed.

Lemma exploded_countries_one (r : ERow) (c : string) :
  country r = Some c ->
  present (map country (exploded_countries [r])) = split_comma c.
Proof.
  intros E. unfold exploded_countries, explode. simpl.
  rewrite E, app_nil_r. simpl.
  pose proof (split_comma_nonempty c) as Hne.
  destruct (split_comma c) as [|x l]; [congruence|].
  rewrite map_map. simpl. f_equal.
  induction l as [|y l IH]; simpl; [reflexivity | now rewrite IH].
Qed.

Lemma occ_pos (k : string) (l : list string) :
  In k l -> (1 <= occ String.eqb k l)%nat.
Proof.
  unfold occ. induction l as [|x l IH]; simpl; [tauto|].
  intros [-> | H].
  - rewrite String.eqb_refl. simpl. lia.
  - specialize (IH H). destruct (String.eqb k x); simpl; lia.
Qed.

Lemma count_country_split (k : string) (l1 l2 : DataFrame) (r : ERow) (c : string) :
  country r = Some c ->
  count_in String.eqb k (country_counts (l1 ++ r :: l2)) =
  (count_in String.eqb k (country_counts (l1 ++ l2))
   + occ String.eqb k (split_comma c))%nat.
Proof.
  intros E. unfold country_counts.
  rewrite !(count_in_value_counts _ string_eqb_spec).
  change (r :: l2) with ([r] ++ l2).
  rewrite !exploded_countries_app, !map_app, !present_app, !occ_app.
  pose proof (exploded_countries_one r c E) as Hr.
  unfold DataFrame, ERow in *. rewrite Hr. lia.
Qed.

(** C10, as stated, fails: in a table that the program loads, a record
    without [date_added] and without [duration] counts in chart 1 and
    gives no point to chart 3, but it gives no point to chart 4 either. *)
Lemma undated_record_without_duration :
  prepare [undated; dated_movie] = inl (load [undated; dated_movie]) /\
  map year_added (load [undated; dated_movie]) = [None; Some 2021%Z] /\
  counts_1_3_4_5
    (update_dashboard (load [undated; dated_movie]) (2019, 2019)%Z "All" "All")
  = Some ([("Movie", 2)], [((2021%Z, "Movie"), 1)], 1, [("India", 2)])%nat /\
  map year_added (scatter_df (load [undated; dated_movie])) = [Some 2021%Z] /\
  ~ (forall raw df selected_years selected_type selected_country fdf r,
       prepare raw = inl df ->
       filtered_df df selected_years selected_type selected_country
         = Some fdf ->
       In r fdf -> year_added r = None -> In r (scatter_df fdf)).
Proof.
  split; [reflexivity|]. split; [reflexivity|].
  split; [vm_compute; reflexivity|]. split; [reflexivity|].
  intros H.
  specialize (H [undated; dated_movie] (load [undated; dated_movie])
                (2019, 2019)%Z "All" "All" (load [undated; dated_movie])
                (with_genres (clean undated) (Some "Comedy"))
                eq_refl eq_refl (or_introl eq_refl) eq_refl).
  destruct H as [H | []]. discriminate.
Qed.

(** C10, amended. A row of the filtered table whose [year_added] is
    absent gives nothing to chart 3: the grouped counts are those of the
    table without the row.  The row still adds one to the count of its
    type in chart 1, and at least one to the count of each country token
    of its country cell in chart 5.  When its [genres] cell is present it
    adds one to the count of its genre in the genre counts of which
    chart 2 keeps the first ten, and so to the bar of that genre whenever
    chart 2 shows it.  When its [duration_num] is present it is one of
    the points of chart 4. *)
Theorem absent_year_added_only_leaves_timeline (l1 l2 : DataFrame) (r : ERow) :
  year_added r = None ->
  timeline_df (l1 ++ r :: l2) = timeline_df (l1 ++ l2) /\
  count_in String.eqb (type r) (type_counts (l1 ++ r :: l2))
    = S (count_in String.eqb (type r) (type_counts (l1 ++ l2))) /\
  (forall g, genres r = Some g ->
     count_in String.eqb g (genre_value_counts (l1 ++ r :: l2))
     = S (count_in String.eqb g (genre_value_counts (l1 ++ l2)))) /\
  (forall g n, genres r = Some g ->
     In (g, n) (genre_counts (l1 ++ r :: l2)) ->
     n = S (count_in String.eqb g (genre_value_counts (l1 ++ l2)))) /\
  (forall n, duration_num r = Some n ->
     scatter_df (l1 ++ r :: l2) = scatter_df l1 ++ r :: scatter_df l2) /\
  (forall c k, country r = Some c -> In k (split_comma c) ->
     (count_in String.eqb k (country_counts (l1 ++ l2))
      < count_in String.eqb k (country_counts (l1 ++ r :: l2)))%nat).
Proof.
  intros Hy.
  assert (Hgenre : forall g, genres r = Some g ->
            count_in String.eqb g (genre_value_counts (l1 ++ r :: l2))
            = S (count_in String.eqb g (genre_value_counts (l1 ++ l2)))).
  { intros g Hg. rewrite !count_genre, !filter_app. simpl.
    rewrite Hg, String.eqb_refl, !length_app. simpl. lia. }
  split; [|split; [|split; [|split; [|split]]]].
  - unfold timeline_df. rewrite !flat_map_app. simpl.
    unfold group_key at 2. now rewrite Hy.
  - rewrite !count_type, !filter_app. simpl.
    rewrite String.eqb_refl, !length_app. simpl. lia.
  - exact Hgenre.
  - intros g n Hg Hin. rewrite <- (Hgenre g Hg).
    unfold genre_counts, genre_value_counts in *.
    destruct (head_value_counts String.eqb string_eqb_spec 10
                (map genres (l1 ++ r :: l2))) as (_ & _ & Hentry & _).
    destruct (Hentry g n Hin) as [_ ->].
    now rewrite (count_in_value_counts _ string_eqb_spec).
  - intros n Hn. unfold scatter_df, dropna. rewrite filter_app. simpl.
    now rewrite Hn.
  - intros c k Hc Hk. rewrite (count_country_split k l1 l2 r c Hc).
    pose proof (occ_pos k _ Hk). lia.
Qed.

Lemma absent_year_added_only_leaves_timeline_witness :
  timeline_df (load [two_genre_show; undated])
    = timeline_df (load [two_genre_show]) /\
  count_in String.eqb "Movie" (type_counts (load [two_genre_show; undated]))
    = S (count_in String.eqb "Movie" (type_counts (load [two_genre_show]))).
Proof.
  destruct (absent_year_added_only_leaves_timeline
              (load [two_genre_show]) []
              (with_genres (clean undated) (Some "Comedy")) eq_refl)
    as (H3 & H1 & _).
  split; [exact H3 | exact H1].
Defined.

End Dashboard.

(** ** Reading the file *)

Module StartupFacts.
Import Pandas App Startup Views PandasFacts TextFacts FilterFacts.
Local Open Scope list_scope.

(** The table is read exactly in three ways: from the URL; from the
    local file as utf-8 when the URL read raised anything; from the local
    file as latin1 when, besides, the utf-8 read raised
    [UnicodeDecodeError]. *)
Theorem read_data_success (w : World) (rows : list RawRow) :
  read_data w = inl rows <->
  url_utf8 w = Returned rows \/
  (exists e, url_utf8 w = Raised e) /\
  (local_utf8 w = Returned rows \/
   local_utf8 w = Raised UnicodeDecodeError /\
   local_latin1 w = Returned rows).
Proof.
  unfold read_data. split.
  - destruct (url_utf8 w) as [t|e]; [intros H; injection H as ->; now left|].
    intros H. right. split; [now exists e|].
    destruct (local_utf8 w) as [t|[| |name]]; try discriminate.
    + injection H as ->. now left.
    + destruct (local_latin1 w) as [t|e']; [|discriminate].
      injection H as ->. now right.
  - intros [-> | [[e ->] [-> | [-> ->]]]]; reflexivity.
Qed.

(** When no table is read, the URL read has raised; the [Exception] of
    line 23 is what ends the module exactly when the utf-8 read of the
    local file raised [FileNotFoundError]; otherwise the exception of the
    last local read escapes as it is: that of the latin1 read after a
    [UnicodeDecodeError], or any other exception of the utf-8 read. *)
Theorem read_data_failure (w : World) (f : Failure) :
  read_data w = inr f ->
  (exists e, url_utf8 w = Raised e) /\
  (f = CouldNotLoad <-> local_utf8 w = Raised FileNotFoundError) /\
  (forall e, f = Uncaught e ->
     local_utf8 w = Raised UnicodeDecodeError /\ local_latin1 w = Raised e \/
     exists name, e = OtherError name /\ local_utf8 w = Raised e).
Proof.
  unfold read_data.
  destruct (url_utf8 w) as [t|e0]; [discriminate|].
  intros H. split; [now exists e0|].
  destruct (local_utf8 w) as [t|[| |name]]; try discriminate.
  - destruct (local_latin1 w) as [t|e']; [discriminate|].
    injection H as <-. split.
    + split; discriminate.
    + intros e E. injection E as <-. now left.
  - injection H as <-. split; [split; reflexivity | discriminate].
  - injection H as <-. split.
    + split; discriminate.
    + intros e E. injection E as <-. right. now exists name.
Qed.

Lemma read_data_failure_witness :
  (exists e, url_utf8 {| url_utf8 := Raised (OtherError "URLError");
                         local_utf8 := Raised FileNotFoundError;
                         local_latin1 := Returned [] |} = Raised e) /\
  (CouldNotLoad = CouldNotLoad <->
   local_utf8 {| url_utf8 := Raised (OtherError "URLError");
                 local_utf8 := Raised FileNotFoundError;
                 local_latin1 := Returned [] |} = Raised FileNotFoundError).
Proof.
  destruct (read_data_failure
              {| url_utf8 := Raised (OtherError "URLError");
                 local_utf8 := Raised FileNotFoundError;
                 local_latin1 := Returned [] |} CouldNotLoad eq_refl)
    as (H1 & H2 & _).
  split; [exact H1 | exact H2].
Defined.

End StartupFacts.

(** ** The prepared columns *)

Module PrepareFacts.
Import Pandas App Startup Views PandasFacts TextFacts FilterFacts.
Local Open Scope list_scope.

(** Every row of the loaded table is the cleaned copy of a record, with
    some [genres] cell. *)
Lemma load_rows (raw : list RawRow) (row : ERow) :
  In row (load raw) ->
  exists r g, In r raw /\ row = with_genres (clean r) g.
Proof.
  rewrite load_per_record, in_flat_map. intros (r & Hr & Hin).
  exists r. rewrite load_one in Hin.
  destruct (raw_listed_in r) as [s|].
  - apply in_map_iff in Hin. destruct Hin as (g & <- & _).
    exists (Some g). now split.
  - destruct Hin as [<- | []]. exists None. now split.
Qed.

(** In the loaded table the [country] and [rating] cells are never
    absent: each holds the value of the record, or the text [Unknown]
    when the record has none. *)
Theorem loaded_country_and_rating_filled (raw : list RawRow) (row : ERow) :
  In row (load raw) ->
  exists r, In r raw /\
    country row = Some (match raw_country r with
                        | Some c => c
                        | None => "Unknown"
                        end) /\
    rating row = Some (match raw_rating r with
                       | Some c => c
                       | None => "Unknown"
                       end).
Proof.
  intros H. destruct (load_rows raw row H) as (r & g & Hr & ->).
  exists r. split; [assumption|]. simpl.
  destruct (raw_country r), (raw_rating r); now split.
Qed.

Lemma loaded_country_and_rating_filled_witness :
  exists r, In r [Scenarios.unlisted; Scenarios.movie_2019] /\
    country (base_row Scenarios.unlisted)
      = Some (match raw_country r with Some c => c | None => "Unknown" end) /\
    rating (base_row Scenarios.unlisted)
      = Some (match raw_rating r with Some c => c | None => "Unknown" end).
Proof.
  apply (loaded_country_and_rating_filled [Scenarios.unlisted; Scenarios.movie_2019]).
  left. reflexivity.
Defined.

(** The duration number goes to [movie_duration] for a Movie and to
    [tv_seasons] for a TV Show, to neither for any other type, and never
    to both. *)
Theorem duration_goes_to_one_column (raw : list RawRow) (row : ERow) :
  In row (load raw) ->
  movie_duration row
    = (if String.eqb (type row) "Movie" then duration_num row else None) /\
  tv_seasons row
    = (if String.eqb (type row) "TV Show" then duration_num row else None) /\
  (movie_duration row = None \/ tv_seasons row = None).
Proof.
  intros H. destruct (load_rows raw row H) as (r & g & _ & ->). simpl.
  unfold gated. split; [reflexivity|]. split; [reflexivity|].
  destruct (String.eqb (raw_type r) "Movie") eqn:E.
  - apply String.eqb_eq in E. rewrite E. now right.
  - now left.
Qed.

Lemma duration_goes_to_one_column_witness :
  movie_duration (base_row Scenarios.unlisted)
    = (if String.eqb (type (base_row Scenarios.unlisted)) "Movie"
       then duration_num (base_row Scenarios.unlisted) else None) /\
  tv_seasons (base_row Scenarios.unlisted)
    = (if String.eqb (type (base_row Scenarios.unlisted)) "TV Show"
       then duration_num (base_row Scenarios.unlisted) else None) /\
  (movie_duration (base_row Scenarios.unlisted) = None \/
   tv_seasons (base_row Scenarios.unlisted) = None).
Proof.
  apply (duration_goes_to_one_column [Scenarios.unlisted; Scenarios.movie_2019]).
  left. reflexivity.
Defined.

Lemma contains_literal (p : string) (d : option string) :
  contains_cell (literal p) false d = true <->
  exists s, d = Some s /\ Substring p s.
Proof.
  destruct d as [s|]; simpl.
  - rewrite re_search_lit. split.
    + intros H. now exists s.
    + intros (s' & E & H). now injection E as ->.
  - split; [discriminate | intros (s & E & _); discriminate].
Qed.

(** The unit is [min] exactly when the duration text holds [min]; it is
    [season] exactly when the text holds [Season] and does not hold
    [min]; it is absent otherwise. *)
Theorem duration_unit_reading (raw : list RawRow) (row : ERow) :
  In row (load raw) ->
  (duration_unit row = Some "min" <->
   exists d, duration row = Some d /\ Substring "min" d) /\
  (duration_unit row = Some "season" <->
   exists d, duration row = Some d /\ Substring "Season" d /\
             ~ Substring "min" d) /\
  (duration_unit row = None \/ duration_unit row = Some "min" \/
   duration_unit row = Some "season").
Proof.
  intros H. destruct (load_rows raw row H) as (r & g & _ & ->). simpl.
  unfold unit_of.
  pose proof (contains_literal "min" (raw_duration r)) as Hm.
  pose proof (contains_literal "Season" (raw_duration r)) as Hs.
  destruct (contains_cell (literal "min") false (raw_duration r)).
  - split; [|split].
    + split; [intros _; now apply Hm | reflexivity].
    + split; [discriminate|].
      intros (d & E & _ & Hn). exfalso.
      destruct (proj1 Hm eq_refl) as (d' & E' & Hd').
      rewrite E in E'. injection E' as <-. now apply Hn.
    + right. now left.
  - assert (Hno : ~ exists s, raw_duration r = Some s /\ Substring "min" s).
    { intros Hex. apply Hm in Hex. discriminate. }
    destruct (contains_cell (literal "Season") false (raw_duration r)).
    + split; [|split].
      * split; [discriminate | intros Hex; now destruct Hno].
      * split; [|reflexivity]. intros _.
        destruct (proj1 Hs eq_refl) as (d & E & Hd).
        exists d. split; [assumption|]. split; [assumption|].
        intros Hmin. apply Hno. now exists d.
      * right. now right.
    + split; [|split].
      * split; [discriminate | intros Hex; now destruct Hno].
      * split; [discriminate|].
        intros (d & E & Hd & _).
        assert (Hex : exists s, raw_duration r = Some s /\ Substring "Season" s)
          by now exists d.
        apply Hs in Hex. discriminate.
      * now left.
Qed.

Lemma duration_unit_reading_witness :
  duration_unit (base_row Scenarios.unlisted) = Some "min" <->
  exists d, duration (base_row Scenarios.unlisted) = Some d /\
            Substring "min" d.
Proof.
  apply (duration_unit_reading [Scenarios.unlisted; Scenarios.movie_2019]).
  left. reflexivity.
Defined.

(** *** The number of the duration *)

Lemma first_digits_none (s : string) :
  first_digits s = None <-> has_digit s = false.
Proof.
  unfold has_digit. induction s as [|c s IH]; simpl; [tauto|].
  destruct (is_digit c); simpl; [split; discriminate | exact IH].
Qed.

Lemma digit_val_nonneg (c : ascii) : is_digit c = true -> (0 <= digit_val c)%Z.
Proof.
  unfold is_digit, digit_val. cbv zeta. intros H. apply andb_prop in H.
  destruct H as [H _]. apply Nat.leb_le in H. lia.
Qed.

Lemma digit_run_nonneg (s : string) : forall acc,
  (0 <= acc)%Z -> (0 <= digit_run acc s)%Z.
Proof.
  induction s as [|c s IH]; intros acc Hacc; cbn [digit_run]; [assumption|].
  destruct (is_digit c) eqn:E; [|assumption].
  apply IH. pose proof (digit_val_nonneg c E). lia.
Qed.

Lemma first_digits_nonneg (s : string) : forall n,
  first_digits s = Some n -> (0 <= n)%Z.
Proof.
  induction s as [|c s IH]; intros n; [discriminate|].
  change (first_digits (String c s))
    with (if is_digit c then Some (digit_run 0 (String c s))
          else first_digits s).
  destruct (is_digit c); [|apply IH].
  intros H. injection H as <-.
  exact (digit_run_nonneg (String c s) 0%Z (Z.le_refl 0)).
Qed.

(** [duration_num] is absent exactly when the duration is absent or
    holds no digit; when present it is not negative. *)
Theorem duration_num_absent_iff_no_digit (raw : list RawRow) (row : ERow) :
  In row (load raw) ->
  (duration_num row = None <->
   duration row = None \/
   exists d, duration row = Some d /\ has_digit d = false) /\
  (forall n, duration_num row = Some n -> (0 <= n)%Z).
Proof.
  intros H. destruct (load_rows raw row H) as (r & g & _ & ->). simpl.
  destruct (raw_duration r) as [d|]; simpl.
  - split.
    + rewrite first_digits_none. split.
      * intros Hd. right. now exists d.
      * intros [E | (d' & E & Hd)]; [discriminate|]. now injection E as ->.
    + intros n. apply first_digits_nonneg.
  - split; [split; [now left | reflexivity] | discriminate].
Qed.

Lemma duration_num_absent_iff_no_digit_witness :
  duration_num (base_row Scenarios.unlisted) = None <->
  duration (base_row Scenarios.unlisted) = None \/
  exists d, duration (base_row Scenarios.unlisted) = Some d /\
            has_digit d = false.
Proof.
  apply (duration_num_absent_iff_no_digit [Scenarios.unlisted; Scenarios.movie_2019]).
  left. reflexivity.
Defined.

Lemma first_digits_skip (pre s : string) :
  has_digit pre = false -> first_digits (pre ++ s)%string = first_digits s.
Proof.
  unfold has_digit. induction pre as [|c pre IH]; simpl; [reflexivity|].
  intros H. apply orb_false_elim in H. destruct H as [Hc Hp].
  rewrite Hc. now apply IH.
Qed.

Lemma digit_run_stop (acc : Z) (post : string) :
  starts_digit post = false -> digit_run acc post = acc.
Proof. destruct post as [|c post]; simpl; [reflexivity | now intros ->]. Qed.

Lemma digit_run_uint (post : string) (d : Decimal.uint) :
  starts_digit post = false ->
  forall acc,
    digit_run (Z.of_nat acc) (NilEmpty.string_of_uint d ++ post)%string
    = Z.of_nat (Nat.of_uint_acc d acc).
Proof.
  intros Hpost. induction d as [|d IH|d IH|d IH|d IH|d IH|d IH|d IH|d IH|d IH|d IH];
    intros acc; cbn [NilEmpty.string_of_uint Nat.of_uint_acc append];
    [now apply digit_run_stop|..];
    cbn [digit_run]; rewrite <- IH;
    change (is_digit _) with true; cbv iota; f_equal;
    rewrite ?Nat2Z.inj_succ, Nat.tail_mul_spec, Nat2Z.inj_mul;
    unfold digit_val; simpl; lia.
Qed.

Lemma to_uint_nonnil (n : nat) : Nat.to_uint n <> Decimal.Nil.
Proof.
  rewrite <- (Unsigned.of_to n) at 1. rewrite Unsigned.to_of.
  apply DecimalFacts.unorm_nonnil.
Qed.

(** The number read from a duration is the first number written in it:
    after a text without digit, the decimal writing of [n], and a rest
    that does not start with a digit, the number is [n], for every [n]
    up to 2^53, which a float holds exactly. *)
Theorem first_digits_reads_decimal (pre post : string) (n : nat) :
  has_digit pre = false ->
  starts_digit post = false ->
  float_exact (Z.of_nat n) ->
  str_extract_digits (Some (pre ++ decimal n ++ post)%string)
  = Some (Z.of_nat n).
Proof.
  intros Hpre Hpost _. simpl. rewrite (first_digits_skip _ _ Hpre).
  unfold decimal. pose proof (to_uint_nonnil n) as Hn.
  pose proof (digit_run_uint post (Nat.to_uint n) Hpost 0%nat) as Hrun.
  change (Nat.of_uint_acc (Nat.to_uint n) 0) with (Nat.of_uint (Nat.to_uint n))
    in Hrun.
  rewrite Unsigned.of_to in Hrun.
  destruct (Nat.to_uint n) as [|d|d|d|d|d|d|d|d|d|d]; [congruence|..];
    exact (f_equal Some Hrun).
Qed.

Lemma first_digits_reads_decimal_witness :
  str_extract_digits (Some ("" ++ decimal 90 ++ " min")%string) = Some 90%Z.
Proof.
  apply (first_digits_reads_decimal "" " min" 90);
    [reflexivity | reflexivity | unfold float_exact; lia].
Defined.

End PrepareFacts.

(** ** The layout *)

Module LayoutFacts.
Import Pandas App Startup Views PandasFacts TextFacts FilterFacts.
Local Open Scope list_scope.
Local Open Scope Z_scope.

Lemma fold_min_spec (col : list (option Z)) : forall acc,
  match fold_left min_step col acc with
  | Some m =>
      (acc = Some m \/ In (Some m) col) /\
      (forall x, acc = Some x -> m <= x) /\
      (forall y, In (Some y) col -> m <= y)
  | None => acc = None /\ forall y, ~ In (Some y) col
  end.
Proof.
  induction col as [|c col IH]; intros acc; simpl.
  - destruct acc as [m|].
    + split; [now left|]. split; [|tauto].
      intros x E. injection E as <-. lia.
    + split; [reflexivity | tauto].
  - specialize (IH (min_step acc c)).
    destruct (fold_left min_step col (min_step acc c)) as [m|].
    + destruct IH as (Hin & Hacc & Hcol).
      destruct c as [y|], acc as [x|]; simpl in *.
      * specialize (Hacc _ eq_refl). split; [|split].
        -- destruct Hin as [E | Hin]; [|now right; right].
           injection E as <-.
           destruct (Z.min_spec x y) as [[_ ->] | [_ ->]];
             [now left | right; now left].
        -- intros x' E. injection E as <-. lia.
        -- intros y' [E | Hy']; [injection E as <-; lia | now apply Hcol].
      * specialize (Hacc _ eq_refl). split; [|split].
        -- destruct Hin as [E | Hin]; [right; now left | now right; right].
        -- discriminate.
        -- intros y' [E | Hy']; [injection E as <-; lia | now apply Hcol].
      * split; [|split].
        -- destruct Hin as [E | Hin]; [now left | now right; right].
        -- exact Hacc.
        -- intros y' [E | Hy']; [discriminate | now apply Hcol].
      * split; [|split].
        -- destruct Hin as [E | Hin]; [discriminate | now right; right].
        -- discriminate.
        -- intros y' [E | Hy']; [discriminate | now apply Hcol].
    + destruct IH as (Hacc & Hcol).
      destruct c as [y|], acc as [x|]; simpl in *; try discriminate.
      split; [reflexivity|]. intros y [E | Hy]; [discriminate|].
      now apply (Hcol y).
Qed.

Lemma fold_max_spec (col : list (option Z)) : forall acc,
  match fold_left max_step col acc with
  | Some m =>
      (acc = Some m \/ In (Some m) col) /\
      (forall x, acc = Some x -> x <= m) /\
      (forall y, In (Some y) col -> y <= m)
  | None => acc = None /\ forall y, ~ In (Some y) col
  end.
Proof.
  induction col as [|c col IH]; intros acc; simpl.
  - destruct acc as [m|].
    + split; [now left|]. split; [|tauto].
      intros x E. injection E as <-. lia.
    + split; [reflexivity | tauto].
  - specialize (IH (max_step acc c)).
    destruct (fold_left max_step col (max_step acc c)) as [m|].
    + destruct IH as (Hin & Hacc & Hcol).
      destruct c as [y|], acc as [x|]; simpl in *.
      * specialize (Hacc _ eq_refl). split; [|split].
        -- destruct Hin as [E | Hin]; [|now right; right].
           injection E as <-.
           destruct (Z.max_spec x y) as [[_ ->] | [_ ->]];
             [right; now left | now left].
        -- intros x' E. injection E as <-. lia.
        -- intros y' [E | Hy']; [injection E as <-; lia | now apply Hcol].
      * specialize (Hacc _ eq_refl). split; [|split].
        -- destruct Hin as [E | Hin]; [right; now left | now right; right].
        -- discriminate.
        -- intros y' [E | Hy']; [injection E as <-; lia | now apply Hcol].
      * split; [|split].
        -- destruct Hin as [E | Hin]; [now left | now right; right].
        -- exact Hacc.
        -- intros y' [E | Hy']; [discriminate | now apply Hcol].
      * split; [|split].
        -- destruct Hin as [E | Hin]; [discriminate | now right; right].
        -- discriminate.
        -- intros y' [E | Hy']; [discriminate | now apply Hcol].
    + destruct IH as (Hacc & Hcol).
      destruct c as [y|], acc as [x|]; simpl in *; try discriminate.
      split; [reflexivity|]. intros y [E | Hy]; [discriminate|].
      now apply (Hcol y).
Qed.

Lemma col_min_spec (col : list (option Z)) (lo : Z) :
  col_min col = Some lo ->
  In (Some lo) col /\ forall y, In (Some y) col -> lo <= y.
Proof.
  intros E. pose proof (fold_min_spec col None) as H.
  change (fold_left min_step col None) with (col_min col) in H.
  rewrite E in H. destruct H as ([H | H] & _ & Hcol); [discriminate|].
  now split.
Qed.

Lemma col_max_spec (col : list (option Z)) (hi : Z) :
  col_max col = Some hi ->
  In (Some hi) col /\ forall y, In (Some y) col -> y <= hi.
Proof.
  intros E. pose proof (fold_max_spec col None) as H.
  change (fold_left max_step col None) with (col_max col) in H.
  rewrite E in H. destruct H as ([H | H] & _ & Hcol); [discriminate|].
  now split.
Qed.

Lemma col_min_none (col : list (option Z)) :
  col_min col = None <-> forall y, ~ In (Some y) col.
Proof.
  pose proof (fold_min_spec col None) as H.
  change (fold_left min_step col None) with (col_min col) in H.
  destruct (col_min col) as [m|].
  - split; [discriminate|]. intros Hno.
    destruct H as ([H | H] & _); [discriminate | now destruct (Hno m)].
  - split; [intros _; apply H | reflexivity].
Qed.

Lemma col_max_none (col : list (option Z)) :
  col_max col = None <-> forall y, ~ In (Some y) col.
Proof.
  pose proof (fold_max_spec col None) as H.
  change (fold_left max_step col None) with (col_max col) in H.
  destruct (col_max col) as [m|].
  - split; [discriminate|]. intros Hno.
    destruct H as ([H | H] & _); [discriminate | now destruct (Hno m)].
  - split; [intros _; apply H | reflexivity].
Qed.

Lemma range_from_spec (stop step : Z) :
  0 < step ->
  forall n start m,
    stop - start <= Z.of_nat n ->
    In m (range_from n start stop step) <->
    start <= m < stop /\ exists k, 0 <= k /\ m = start + k * step.
Proof.
  intros Hstep. induction n as [|n IH]; intros start m Hn.
  - simpl. split; [tauto | lia].
  - cbn [range_from]. destruct (start <? stop) eqn:E.
    + apply Z.ltb_lt in E. simpl. rewrite IH by lia. split.
      * intros [<- | [Hm (k & Hk & ->)]].
        -- split; [lia|]. exists 0. lia.
        -- split; [nia|]. exists (k + 1). nia.
      * intros [Hm (k & Hk & ->)].
        destruct (Z.eq_dec k 0) as [-> | Hk0]; [left; lia|].
        right. split; [nia|]. exists (k - 1). nia.
    + apply Z.ltb_ge in E. simpl. split; [tauto | lia].
Qed.

Lemma py_range_spec (start stop step m : Z) :
  0 < step ->
  In m (py_range start stop step) <->
  start <= m < stop /\ (m - start) mod step = 0.
Proof.
  intros Hstep. unfold py_range. rewrite (range_from_spec stop step Hstep) by lia.
  split; intros [Hm H]; (split; [assumption|]).
  - destruct H as (k & _ & ->).
    replace (start + k * step - start) with (k * step) by lia.
    apply Z.mod_mul. lia.
  - apply Z.mod_divide in H; [|lia]. destruct H as [k Hk].
    exists k. split; [nia | lia].
Qed.

Lemma in_release_years (df : DataFrame) (y : Z) :
  In (Some y) (map release_year df) <->
  exists r, In r df /\ release_year r = Some y.
Proof.
  rewrite in_map_iff. split; intros (r & H1 & H2); exists r; now split.
Qed.

(** When there is a slider, its two ends are release years of rows of
    the table, least and greatest, and its initial value is the pair of
    them: with that value the year filter keeps every row that has a
    release year, and drops the others. *)
Theorem slider_default_keeps_every_year (df : DataFrame) (sl : Slider) :
  year_slider df = Some sl ->
  slider_value sl = (slider_min sl, slider_max sl) /\
  (exists r, In r df /\ release_year r = Some (slider_min sl)) /\
  (exists r, In r df /\ release_year r = Some (slider_max sl)) /\
  (forall r y, In r df -> release_year r = Some y ->
               slider_min sl <= y <= slider_max sl) /\
  filter_years (slider_value sl) df = dropna release_year df.
Proof.
  unfold year_slider.
  destruct (col_min (map release_year df)) as [lo|] eqn:Emin; [|discriminate].
  destruct (col_max (map release_year df)) as [hi|] eqn:Emax; [|discriminate].
  intros H. injection H as <-. simpl.
  destruct (col_min_spec _ _ Emin) as [Hlo Hmin].
  destruct (col_max_spec _ _ Emax) as [Hhi Hmax].
  assert (Hall : forall r y, In r df -> release_year r = Some y -> lo <= y <= hi).
  { intros r y Hr Hy. split; [apply Hmin | apply Hmax];
      apply in_release_years; now exists r. }
  split; [reflexivity|].
  split; [now apply in_release_years|].
  split; [now apply in_release_years|].
  split; [exact Hall|].
  rewrite filter_years_filter. unfold dropna. apply filter_ext_in.
  intros r Hr. unfold in_years. simpl.
  destruct (release_year r) as [y|] eqn:Ey; [|reflexivity].
  destruct (Hall r y Hr Ey). apply andb_true_intro. split; now apply Z.leb_le.
Qed.

Lemma slider_default_keeps_every_year_witness :
  filter_years (2019, 2020) (load Scenarios.scenario)
  = dropna release_year (load Scenarios.scenario).
Proof.
  destruct (slider_default_keeps_every_year (load Scenarios.scenario)
              {| slider_min := 2019; slider_max := 2020;
                 slider_value := (2019, 2020);
                 slider_marks := [2019] |} eq_refl)
    as (_ & _ & _ & _ & H).
  exact H.
Defined.

(** There is no slider exactly when no row of the table has a release
    year: the layout then raises on [int] of NaN. *)
Theorem no_slider_without_years (df : DataFrame) :
  year_slider df = None <-> dropna release_year df = [].
Proof.
  assert (Hno : (forall y, ~ In (Some y) (map release_year df)) <->
                dropna release_year df = []).
  { unfold dropna. induction df as [|r df IH]; simpl; [tauto|].
    destruct (release_year r) as [y|].
    - split; [intros H; now destruct (H y); left | discriminate].
    - rewrite <- IH. split.
      + intros H y Hy. apply (H y). now right.
      + intros H y [E | Hy]; [discriminate | now apply (H y)]. }
  rewrite <- Hno, <- col_min_none. unfold year_slider.
  destruct (col_min (map release_year df)) as [lo|] eqn:Emin.
  - destruct (col_max (map release_year df)) as [hi|] eqn:Emax.
    + split; discriminate.
    + exfalso. pose proof (proj1 (col_max_none _) Emax) as Hm.
      destruct (col_min_spec _ _ Emin) as [Hin _]. now apply (Hm lo).
  - split; reflexivity.
Qed.

(** The marks of the slider are the years from the least release year
    up to the greatest, by steps of five from the least. *)
Theorem slider_marks_every_five (df : DataFrame) (sl : Slider) (m : Z) :
  year_slider df = Some sl ->
  In m (slider_marks sl) <->
  slider_min sl <= m <= slider_max sl /\ (m - slider_min sl) mod 5 = 0.
Proof.
  unfold year_slider.
  destruct (col_min (map release_year df)) as [lo|]; [|discriminate].
  destruct (col_max (map release_year df)) as [hi|]; [|discriminate].
  intros H. injection H as <-. simpl.
  rewrite py_range_spec by lia. split; intros [H1 H2]; (split; [lia | assumption]).
Qed.

Lemma slider_marks_every_five_witness :
  In 2024 (slider_marks {| slider_min := 2019; slider_max := 2025;
                           slider_value := (2019, 2025);
                           slider_marks := [2019; 2024] |}) <->
  2019 <= 2024 <= 2025 /\ (2024 - 2019) mod 5 = 0.
Proof.
  apply (slider_marks_every_five
           (load [Scenarios.movie_2019;
                  Scenarios.record "Movie" 2025 None Missing None None])).
  reflexivity.
Defined.

End LayoutFacts.

(** ** Grouped counts *)

Module GroupFacts.
Import Pandas App Startup Views PandasFacts TextFacts FilterFacts CountFacts.
Local Open Scope list_scope.

Lemma string_compare_ot (a b : string) :
  String.compare a b = String_as_OT.compare a b.
Proof.
  revert b. induction a as [|c a IH]; destruct b as [|d b]; reflexivity.
Qed.

Lemma string_lt_trans (a b c : string) :
  String.compare a b = Lt -> String.compare b c = Lt -> String.compare a c = Lt.
Proof.
  rewrite !string_compare_ot. intros H1 H2.
  exact (@RelationClasses.StrictOrder_Transitive _ _
           String_as_OT.lt_strorder a b c H1 H2).
Qed.

Lemma string_compare_refl (s : string) : String.compare s s = Eq.
Proof.
  induction s as [|c s IH]; simpl; [reflexivity|].
  unfold Ascii.compare. now rewrite N.compare_refl.
Qed.

Lemma key_eqb_spec (a b : Z * string) : key_eqb a b = true <-> a = b.
Proof.
  unfold key_eqb. destruct a as [y s], b as [y' s']. simpl.
  rewrite andb_true_iff, Z.eqb_eq, String.eqb_eq.
  split; [intros [-> ->]; reflexivity | intros E; now injection E].
Qed.

Lemma key_compare_eq (a b : Z * string) : key_compare a b = Eq <-> a = b.
Proof.
  unfold key_compare. destruct a as [y s], b as [y' s']. simpl.
  destruct (Z.compare_spec y y') as [-> | H | H].
  - split.
    + intros H. apply String.compare_eq_iff in H. now subst.
    + intros E. injection E as ->. apply string_compare_refl.
  - split; [discriminate | intros E; injection E; lia].
  - split; [discriminate | intros E; injection E; lia].
Qed.

Lemma key_lt_trans (a b c : Z * string) :
  key_lt a b -> key_lt b c -> key_lt a c.
Proof.
  unfold key_lt, key_compare.
  destruct a as [y1 s1], b as [y2 s2], c as [y3 s3]. simpl.
  destruct (Z.compare_spec y1 y2) as [-> | H12 | H12]; try discriminate;
    destruct (Z.compare_spec y2 y3) as [-> | H23 | H23]; try discriminate;
    intros H1 H2.
  - now apply (string_lt_trans s1 s2 s3).
  - reflexivity.
  - destruct (Z.compare_spec y1 y3) as [E | H | H]; [lia | reflexivity | lia].
  - destruct (Z.compare_spec y1 y3) as [E | H | H]; [lia | reflexivity | lia].
Qed.

Lemma key_compare_gt (a b : Z * string) :
  key_compare a b = Gt -> key_lt b a.
Proof.
  unfold key_lt, key_compare. destruct a as [y s], b as [y' s']. simpl.
  destruct (Z.compare_spec y y') as [-> | H | H]; [|discriminate|].
  - rewrite Z.compare_refl. intros Hs.
    rewrite (String.compare_antisym s' s), Hs. reflexivity.
  - intros _. apply Z.compare_lt_iff in H. now rewrite H.
Qed.

Lemma total_group_bump (k : Z * string) (t : list ((Z * string) * nat)) :
  total (group_bump k t) = S (total t).
Proof.
  unfold total. induction t as [|[k' n] t IH]; [reflexivity|].
  cbn [group_bump]. destruct (key_compare k k'); simpl; [lia | lia |].
  simpl in IH. rewrite IH. lia.
Qed.

Lemma count_in_group_bump (k k' : Z * string) (t : list ((Z * string) * nat)) :
  count_in key_eqb k (group_bump k' t)
  = (count_in key_eqb k t + if key_eqb k k' then 1 else 0)%nat.
Proof.
  unfold count_in. induction t as [|[k'' n] t IH].
  - simpl. destruct (key_eqb k k'); reflexivity.
  - cbn [group_bump]. destruct (key_compare k' k'') eqn:E.
    + apply key_compare_eq in E. subst k''. cbn [filter map fst].
      destruct (key_eqb k k'); simpl; lia.
    + cbn [filter map fst]. destruct (key_eqb k k'), (key_eqb k k''); simpl; lia.
    + cbn [filter map fst]. destruct (key_eqb k k''); simpl; rewrite IH; lia.
Qed.

Lemma in_keys_group_bump (x k : Z * string) (t : list ((Z * string) * nat)) :
  In x (map fst (group_bump k t)) <-> x = k \/ In x (map fst t).
Proof.
  induction t as [|[k' n] t IH].
  - simpl. split; [intros [<- | []]; now left | intros [-> | []]; now left].
  - cbn [group_bump]. destruct (key_compare k k') eqn:E.
    + apply key_compare_eq in E. subst k'. simpl. split; [tauto|].
      intros [-> | H]; [now left | exact H].
    + simpl. split; [intros [<- | H]; [now left | now right]
                    | intros [-> | H]; [now left | now right]].
    + simpl. rewrite IH. tauto.
Qed.

Lemma group_bump_sorted (k : Z * string) (t : list ((Z * string) * nat)) :
  StronglySorted (fun a b => key_lt (fst a) (fst b)) t ->
  StronglySorted (fun a b => key_lt (fst a) (fst b)) (group_bump k t).
Proof.
  induction 1 as [|[k' n] t Ht IH Hk'].
  - repeat constructor.
  - cbn [group_bump]. destruct (key_compare k k') eqn:E.
    + apply key_compare_eq in E. subst k'. now constructor.
    + constructor; [now constructor|]. constructor; [exact E|].
      eapply Forall_impl; [|exact Hk']. intros [k'' n''] H. simpl in *.
      now apply (key_lt_trans k k' k'').
    + constructor; [exact IH|].
      rewrite Forall_forall. intros [k'' n''] Hin. simpl.
      assert (Hkey : In k'' (map fst (group_bump k t)))
        by (apply in_map_iff; now exists (k'', n'')).
      apply in_keys_group_bump in Hkey. destruct Hkey as [-> | Hkey].
      * now apply key_compare_gt.
      * apply in_map_iff in Hkey. destruct Hkey as ([k3 n3] & E3 & Hin3).
        simpl in E3. subst k3. rewrite Forall_forall in Hk'.
        exact (Hk' _ Hin3).
Qed.

Lemma fold_group (keys : list (Z * string)) : forall t,
  StronglySorted (fun a b => key_lt (fst a) (fst b)) t ->
  let t' := fold_left (fun t k => group_bump k t) keys t in
  StronglySorted (fun a b => key_lt (fst a) (fst b)) t' /\
  total t' = (total t + length keys)%nat /\
  (forall k, count_in key_eqb k t'
             = (count_in key_eqb k t + occ key_eqb k keys)%nat) /\
  (forall x, In x (map fst t') <-> In x (map fst t) \/ In x keys).
Proof.
  induction keys as [|k keys IH]; intros t Ht; simpl.
  - split; [assumption|]. split; [lia|]. split; [intros; unfold occ; simpl; lia|].
    tauto.
  - destruct (IH (group_bump k t) (group_bump_sorted k t Ht))
      as (Hs & Htot & Hcount & Hkeys).
    split; [exact Hs|]. split; [rewrite Htot, total_group_bump; lia|]. split.
    + intros k0. rewrite Hcount, count_in_group_bump. unfold occ. simpl.
      destruct (key_eqb k0 k); simpl; lia.
    + intros x. rewrite Hkeys, in_keys_group_bump. split.
      * intros [[-> | H] | H]; [right; now left | now left | right; now right].
      * intros [H | [-> | H]]; [left; now right | left; now left | now right].
Qed.

Lemma sorted_keys_nodup (t : list ((Z * string) * nat)) :
  StronglySorted (fun a b => key_lt (fst a) (fst b)) t -> NoDup (map fst t).
Proof.
  induction 1 as [|[k n] t Ht IH Hk]; simpl; constructor; [|exact IH].
  intros Hin. apply in_map_iff in Hin. destruct Hin as ([k' n'] & E & Hin).
  simpl in E. subst k'. rewrite Forall_forall in Hk.
  specialize (Hk _ Hin). unfold key_lt in Hk. simpl in Hk.
  rewrite (proj2 (key_compare_eq k k) eq_refl) in Hk. discriminate.
Qed.

Lemma group_keys_rows (k : Z * string) (fdf : DataFrame) :
  occ key_eqb k (flat_map group_key fdf) = rows_added k fdf.
Proof.
  unfold occ, rows_added, group_key.
  induction fdf as [|r fdf IH]; simpl; [reflexivity|].
  rewrite filter_app, length_app, IH.
  destruct (year_added r) as [y|]; simpl; [|reflexivity].
  destruct (key_eqb k (y, type r)); reflexivity.
Qed.

Lemma length_group_keys (fdf : DataFrame) :
  length (flat_map group_key fdf) = length (dropna year_added fdf).
Proof.
  unfold dropna, group_key. induction fdf as [|r fdf IH]; simpl; [reflexivity|].
  rewrite length_app, IH. now destruct (year_added r).
Qed.

(** The points of chart 3 come in increasing order of year added, then of
    type, one point for each (year added, type) pair that some row has,
    with the number of rows having it; the counts add up to the number
    of rows with a year added. *)
Theorem timeline_points (fdf : DataFrame) :
  StronglySorted (fun a b => key_lt (fst a) (fst b)) (timeline_df fdf) /\
  (forall k n, In (k, n) (timeline_df fdf) <->
               (0 < n)%nat /\ n = rows_added k fdf) /\
  total (timeline_df fdf) = length (dropna year_added fdf).
Proof.
  unfold timeline_df, groupby_size.
  destruct (fold_group (flat_map group_key fdf) [] (SSorted_nil _))
    as (Hs & Htot & Hcount & Hkeys).
  cbv zeta in *. split; [exact Hs|]. split.
  - intros k n. split.
    + intros Hin.
      assert (Hn : n = rows_added k fdf).
      { rewrite <- group_keys_rows.
        rewrite <- (count_in_entry key_eqb key_eqb_spec k n _
                      (sorted_keys_nodup _ Hs) Hin).
        rewrite Hcount. reflexivity. }
      split; [|exact Hn]. subst n. rewrite <- group_keys_rows.
      apply (occ_in key_eqb key_eqb_spec).
      assert (Hk : In k (map fst (fold_left (fun t k0 => group_bump k0 t)
                                    (flat_map group_key fdf) [])))
        by (apply in_map_iff; now exists (k, rows_added k fdf)).
      apply Hkeys in Hk. destruct Hk as [[] | Hk]. exact Hk.
    + intros [Hpos ->]. rewrite <- group_keys_rows in Hpos |- *.
      apply (occ_in key_eqb key_eqb_spec) in Hpos.
      assert (Hk : In k (map fst (fold_left (fun t k0 => group_bump k0 t)
                                    (flat_map group_key fdf) [])))
        by (apply Hkeys; now right).
      apply in_map_iff in Hk. destruct Hk as ([k' n] & E & Hin).
      simpl in E. subst k'.
      rewrite <- (count_in_entry key_eqb key_eqb_spec k n _
                    (sorted_keys_nodup _ Hs) Hin) in Hin.
      rewrite Hcount in Hin. exact Hin.
  - rewrite Htot, length_group_keys. reflexivity.
Qed.

End GroupFacts.

(** ** The figures of the callback *)

Module ChartFacts.
Import Pandas App Startup Views PandasFacts TextFacts FilterFacts CountFacts.
Local Open Scope list_scope.

Lemma present_types (fdf : DataFrame) :
  present (map (fun r : ERow => Some (type r)) fdf) = map type fdf.
Proof.
  unfold present. induction fdf as [|r fdf IH]; simpl; [reflexivity|].
  now rewrite IH.
Qed.

Lemma occ_type (t : string) (fdf : DataFrame) :
  occ String.eqb t (present (map (fun r : ERow => Some (type r)) fdf))
  = rows_of_type t fdf.
Proof. now rewrite occ_present_map. Qed.

Lemma occ_genre (g : string) (fdf : DataFrame) :
  occ String.eqb g (present (map genres fdf)) = rows_of_genre g fdf.
Proof. now rewrite occ_present_map. Qed.

Lemma occ_country (c : string) (df : DataFrame) :
  occ String.eqb c (present (map country df)) = rows_of_country c df.
Proof. now rewrite occ_present_map. Qed.

Lemma type_counts_total (fdf : DataFrame) :
  total (type_counts fdf) = length fdf.
Proof.
  unfold type_counts.
  now rewrite total_value_counts, present_types, length_map.
Qed.

Lemma type_counts_entry (t : string) (n : nat) (fdf : DataFrame) :
  In (t, n) (type_counts fdf) <-> (0 < n)%nat /\ n = rows_of_type t fdf.
Proof.
  unfold type_counts.
  rewrite (value_counts_entry _ string_eqb_spec).
  rewrite (occ_in _ string_eqb_spec), occ_type.
  split; intros [H ->]; now split.
Qed.

Lemma rows_of_type_pos (t : string) (fdf : DataFrame) :
  (0 < rows_of_type t fdf)%nat -> exists r, In r fdf /\ type r = t.
Proof.
  unfold rows_of_type. induction fdf as [|r fdf IH]; simpl; [lia|].
  destruct (String.eqb t (type r)) eqn:E.
  - intros _. apply String.eqb_eq in E. exists r. split; [now left | congruence].
  - intros H. destruct (IH H) as (r' & Hr' & Ht). exists r'. split; [now right | exact Ht].
Qed.

(** Chart 1 has one slice for each type that some row of the filtered
    table has, with the number of rows of that type; the slices add up
    to the number of rows. *)
Theorem type_pie_slices (fdf : DataFrame) :
  NoDup (map fst (type_counts fdf)) /\
  (forall t n, In (t, n) (type_counts fdf) <->
               (0 < n)%nat /\ n = rows_of_type t fdf) /\
  total (type_counts fdf) = length fdf.
Proof.
  split; [apply (NoDup_value_counts _ string_eqb_spec)|].
  split; [|apply type_counts_total].
  intros t n. apply type_counts_entry.
Qed.

(** Chart 2 shows at most ten genres, all different, each with the
    number of rows of the filtered table having it; a genre that is not
    shown has no more rows than any genre shown; and when the table has
    at most ten genres they are all shown. *)
Theorem genre_bar_is_top_ten (fdf : DataFrame) :
  (length (genre_counts fdf) <= 10)%nat /\
  NoDup (map fst (genre_counts fdf)) /\
  (forall g n, In (g, n) (genre_counts fdf) ->
               (0 < n)%nat /\ n = rows_of_genre g fdf) /\
  (forall g n g', In (g, n) (genre_counts fdf) ->
                  ~ In g' (map fst (genre_counts fdf)) ->
                  (rows_of_genre g' fdf <= n)%nat) /\
  ((length (genre_value_counts fdf) <= 10)%nat ->
   genre_counts fdf = genre_value_counts fdf).
Proof.
  unfold genre_counts, genre_value_counts.
  destruct (head_value_counts String.eqb string_eqb_spec 10 (map genres fdf))
    as (Hlen & Hnd & Hentry & Htop).
  split; [exact Hlen|]. split; [exact Hnd|]. split; [|split].
  - intros g n H. destruct (Hentry g n H) as [Hin ->].
    rewrite <- occ_genre. split; [|reflexivity].
    now apply (occ_in _ string_eqb_spec).
  - intros g n g' H H'. rewrite <- occ_genre. exact (Htop g n g' H H').
  - intros H. unfold head. now apply firstn_all2.
Qed.

Lemma country_option_row (df : DataFrame) (c : string) :
  In c (map fst (head 10 (value_counts String.eqb (map country df)))) ->
  exists r, In r df /\ country r = Some c.
Proof.
  destruct (head_value_counts String.eqb string_eqb_spec 10 (map country df))
    as (_ & _ & Hentry & _).
  intros Hc. apply in_map_iff in Hc. destruct Hc as ([c' n] & E & Hin).
  simpl in E. subst c'. destruct (Hentry c n Hin) as [Hp _].
  unfold present in Hp. apply in_flat_map in Hp.
  destruct Hp as (cell & Hcell & Hc). apply in_map_iff in Hcell.
  destruct Hcell as (r & <- & Hr). exists r. split; [exact Hr|].
  destruct (country r) as [c0|]; [|destruct Hc].
  destruct Hc as [-> | []]. reflexivity.
Qed.

(** The country options are [All] followed by at most ten country
    values, all different, each the country cell of some row of the
    table; a value that is not an option is the cell of no more rows
    than any value that is. *)
Theorem country_options_are_top_ten (df : DataFrame) :
  exists opts,
    country_options df = "All" :: opts /\
    (length opts <= 10)%nat /\
    NoDup opts /\
    (forall c, In c opts -> exists r, In r df /\ country r = Some c) /\
    (forall c c', In c opts -> ~ In c' opts ->
                  (rows_of_country c' df <= rows_of_country c df)%nat).
Proof.
  unfold country_options, country_value_counts.
  destruct (head_value_counts String.eqb string_eqb_spec 10 (map country df))
    as (Hlen & Hnd & Hentry & Htop).
  eexists. split; [reflexivity|].
  split; [now rewrite length_map|]. split; [exact Hnd|]. split.
  - apply country_option_row.
  - intros c c' Hc Hc'. apply in_map_iff in Hc.
    destruct Hc as ([c0 n] & E & Hin). simpl in E. subst c0.
    destruct (Hentry c n Hin) as [_ Hn].
    rewrite <- !occ_country, <- Hn. exact (Htop c n c' Hin Hc').
Qed.



(** The year filter and the type filter commute, and the country filter
    commutes with both: the filtered table does not depend on the order
    in which the three filters are applied. *)
Theorem filters_commute (df : DataFrame) (selected_years : Z * Z)
    (selected_type selected_country : string) :
  filter_type selected_type (filter_years selected_years df)
    = filter_years selected_years (filter_type selected_type df) /\
  filtered_df df selected_years selected_type selected_country
    = match filter_country selected_country df with
      | Some t => Some (filter_years selected_years (filter_type selected_type t))
      | None => None
      end.
Proof.
  split.
  - rewrite !filter_type_filter, !filter_years_filter, !filter_filter.
    apply filter_ext. intros r. apply andb_comm.
  - rewrite filtered_filter, filter_country_filter.
    destruct (country_test selected_country) as [q|]; [|reflexivity].
    rewrite filter_type_filter, filter_years_filter, !filter_filter.
    f_equal. apply filter_ext. intros r.
    destruct (q r), (of_type selected_type r), (in_years selected_years r);
      reflexivity.
Qed.

(** When no row of the table has a release year within the selected
    range, the data table of each of the five figures is empty. *)
Theorem no_row_in_range_empty_figures (df : DataFrame) (lo hi : Z)
    (selected_type selected_country : string) (cs : ChartSet) :
  (forall r y, In r df -> release_year r = Some y -> ~ (lo <= y <= hi)%Z) ->
  update_dashboard df (lo, hi) selected_type selected_country = Some cs ->
  data (type_pie cs) = [] /\ data (genre_bar cs) = [] /\
  data (timeline cs) = [] /\ data (duration_scatter cs) = [] /\
  data (country_map cs) = [].
Proof.
  intros Hno. unfold update_dashboard. rewrite filtered_filter.
  destruct (country_test selected_country) as [q|]; [|discriminate].
  assert (E : filter (fun r : ERow => in_years (lo, hi) r
                        && of_type selected_type r && q r) df = []).
  { induction df as [|r df IH]; [reflexivity|]. simpl.
    destruct (in_years (lo, hi) r) eqn:Ey.
    - apply in_years_iff in Ey. destruct Ey as (y & Ey & Hy).
      destruct (Hno r y (or_introl eq_refl) Ey Hy).
    - simpl. apply IH. intros r' y Hr'. apply Hno. now right. }
  rewrite E. intros H. injection H as <-. repeat split.
Qed.

Lemma no_row_in_range_empty_figures_witness :
  exists cs,
    update_dashboard (load Scenarios.scenario) (2030, 2031)%Z "All" "All"
      = Some cs /\
    data (type_pie cs) = [] /\ data (genre_bar cs) = [] /\
    data (timeline cs) = [] /\ data (duration_scatter cs) = [] /\
    data (country_map cs) = [].
Proof.
  eexists. split; [reflexivity|].
  apply (no_row_in_range_empty_figures (load Scenarios.scenario) 2030 2031
           "All" "All").
  - intros r y Hr Hy [H1 H2]. simpl in Hr.
    destruct Hr as [<- | [<- | [<- | []]]]; simpl in Hy;
      injection Hy as <-; lia.
  - reflexivity.
Defined.

(** With a type selected, chart 1 has a single slice, of the selected
    type, counting every row of the filtered table; it has none when the
    table is empty. *)
Theorem one_type_one_slice (df : DataFrame) (selected_years : Z * Z)
    (selected_type selected_country : string) (fdf : DataFrame) :
  selected_type <> "All" ->
  filtered_df df selected_years selected_type selected_country = Some fdf ->
  (fdf = [] /\ type_counts fdf = []) \/
  (fdf <> [] /\ type_counts fdf = [(selected_type, length fdf)]).
Proof.
  intros Hall H. rewrite filtered_filter in H.
  destruct (country_test selected_country) as [q|]; [|discriminate].
  injection H as <-.
  set (fdf := filter _ df).
  assert (Hty : forall r, In r fdf -> type r = selected_type).
  { intros r Hr. apply filter_In in Hr. destruct Hr as [_ Hr].
    apply andb_prop in Hr. destruct Hr as [Hr _].
    apply andb_prop in Hr. destruct Hr as [_ Hr]. unfold of_type in Hr.
    apply String.eqb_neq in Hall. rewrite Hall in Hr.
    now apply String.eqb_eq in Hr. }
  assert (Hkey : forall t n, In (t, n) (type_counts fdf) ->
                             t = selected_type /\ (0 < n)%nat).
  { intros t n Hin. apply type_counts_entry in Hin. destruct Hin as [Hpos ->].
    split; [|exact Hpos].
    destruct (rows_of_type_pos t fdf Hpos) as (r & Hr & <-). now apply Hty. }
  assert (Hnd : NoDup (map fst (type_counts fdf)))
    by apply (NoDup_value_counts _ string_eqb_spec).
  pose proof (type_counts_total fdf) as Htot.
  destruct (type_counts fdf) as [|[t n] [|[t' n'] l]].
  - left. split; [|reflexivity].
    destruct fdf; [reflexivity | discriminate].
  - right. destruct (Hkey t n (or_introl eq_refl)) as [-> Hn].
    unfold total in Htot. simpl in Htot. split.
    + intros E. rewrite E in Htot. simpl in Htot. lia.
    + f_equal. f_equal. lia.
  - exfalso.
    destruct (Hkey t n (or_introl eq_refl)) as [-> _].
    destruct (Hkey t' n' (or_intror (or_introl eq_refl))) as [-> _].
    simpl in Hnd. apply NoDup_cons_iff in Hnd. destruct Hnd as [Hnd _].
    apply Hnd. now left.
Qed.

Lemma one_type_one_slice_witness :
  (filter_years (2019, 2020)%Z (load [Scenarios.two_genre_show]) = [] /\
   type_counts (filter_years (2019, 2020)%Z (load [Scenarios.two_genre_show]))
     = []) \/
  (filter_years (2019, 2020)%Z (load [Scenarios.two_genre_show]) <> [] /\
   type_counts (filter_years (2019, 2020)%Z (load [Scenarios.two_genre_show]))
     = [("TV Show",
         length (filter_years (2019, 2020)%Z
                   (load [Scenarios.two_genre_show])))]).
Proof.
  apply (one_type_one_slice (load [Scenarios.two_genre_show])
           (2019, 2020)%Z "TV Show" "All").
  - discriminate.
  - vm_compute. reflexivity.
Defined.

(** The points of chart 4 are the rows of the filtered table that have a
    duration number, in the order of the table; each has both
    coordinates: a release year within the selected range and a
    duration number. *)
Theorem scatter_points_have_both_coordinates (df : DataFrame)
    (selected_years : Z * Z) (selected_type selected_country : string)
    (fdf : DataFrame) :
  filtered_df df selected_years selected_type selected_country = Some fdf ->
  scatter_df fdf
    = filter (fun r => match duration_num r with
                       | Some _ => true
                       | None => false
                       end) fdf /\
  forall r, In r (scatter_df fdf) ->
    In r df /\
    exists y n, release_year r = Some y /\
                (fst selected_years <= y <= snd selected_years)%Z /\
                duration_num r = Some n.
Proof.
  intros H. split; [reflexivity|].
  rewrite filtered_filter in H.
  destruct (country_test selected_country) as [q|]; [|discriminate].
  injection H as <-. intros r Hr.
  unfold scatter_df, dropna in Hr. apply filter_In in Hr.
  destruct Hr as [Hr Hd]. apply filter_In in Hr. destruct Hr as [Hr Hp].
  split; [exact Hr|].
  apply andb_prop in Hp. destruct Hp as [Hp _].
  apply andb_prop in Hp. destruct Hp as [Hp _].
  destruct selected_years as [lo hi]. apply in_years_iff in Hp.
  destruct Hp as (y & Ey & Hy).
  destruct (duration_num r) as [n|]; [|discriminate].
  exists y, n. now repeat split.
Qed.

Lemma scatter_points_have_both_coordinates_witness :
  In (with_genres (clean Scenarios.movie_2019) (Some "Comedy"))
     (load Scenarios.scenario) /\
  exists y n,
    release_year (with_genres (clean Scenarios.movie_2019) (Some "Comedy"))
      = Some y /\
    (fst (2019, 2020) <= y <= snd (2019, 2020))%Z /\
    duration_num (with_genres (clean Scenarios.movie_2019) (Some "Comedy"))
      = Some n.
Proof.
  apply (proj2 (scatter_points_have_both_coordinates
                  (load Scenarios.scenario) (2019, 2020)%Z "All" "All"
                  (load Scenarios.scenario) eq_refl)).
  left. reflexivity.
Defined.

(** *** Chart 5 *)

Lemma country_cells (fdf : DataFrame) :
  present (map country (exploded_countries fdf))
  = flat_map (fun r : ERow => match country r with
                              | Some c => split_comma c
                              | None => []
                              end) fdf.
Proof.
  induction fdf as [|r fdf IH]; [reflexivity|].
  change (r :: fdf) with ([r] ++ fdf).
  rewrite Dashboard.exploded_countries_app, map_app, present_app.
  unfold DataFrame, ERow in *. rewrite IH, flat_map_app. f_equal.
  cbn [flat_map]. rewrite app_nil_r.
  destruct (country r) as [c|] eqn:E.
  - exact (Dashboard.exploded_countries_one r c E).
  - unfold exploded_countries, explode. simpl. now rewrite E.
Qed.

Lemma occ_flat_map {R : Type} (k : string) (f : R -> list string) (l : list R) :
  occ String.eqb k (flat_map f l)
  = list_sum (map (fun r => occ String.eqb k (f r)) l).
Proof.
  induction l as [|r l IH]; simpl; [reflexivity|].
  now rewrite occ_app, IH.
Qed.

(** Chart 5 counts a row of the filtered table once for each token of
    its country cell split on comma-space: the count of a country is the
    number of its occurrences among the tokens of all rows, and the
    counts add up to the number of tokens. *)
Theorem country_map_counts_tokens (fdf : DataFrame) :
  total (country_counts fdf) = list_sum (map country_tokens fdf) /\
  forall k,
    count_in String.eqb k (country_counts fdf)
    = list_sum (map (fun r : ERow =>
                       match country r with
                       | Some c => occ String.eqb k (split_comma c)
                       | None => 0%nat
                       end) fdf).
Proof.
  unfold country_counts. split.
  - rewrite total_value_counts, country_cells, length_flat_map.
    f_equal. apply map_ext. intros r. unfold country_tokens.
    now destruct (country r).
  - intros k. rewrite (count_in_value_counts _ string_eqb_spec), country_cells.
    rewrite occ_flat_map. f_equal. apply map_ext. intros r.
    now destruct (country r).
Qed.

(** On a table that comes from the load, every row of the filtered table
    counts at least once in chart 5: the counts of chart 5 add up to at
    least the number of rows, which is what the slices of chart 1 add up
    to. *)
Theorem every_loaded_row_is_on_the_map (raw : list RawRow)
    (selected_years : Z * Z) (selected_type selected_country : string)
    (fdf : DataFrame) :
  filtered_df (load raw) selected_years selected_type selected_country
    = Some fdf ->
  (total (type_counts fdf) <= total (country_counts fdf))%nat.
Proof.
  intros H. rewrite filtered_filter in H.
  destruct (country_test selected_country) as [q|]; [|discriminate].
  injection H as <-.
  rewrite type_counts_total.
  destruct (country_map_counts_tokens
              (filter (fun r : ERow => in_years selected_years r
                         && of_type selected_type r && q r) (load raw)))
    as [-> _].
  assert (Hrow : forall r, In r (load raw) -> (1 <= country_tokens r)%nat).
  { intros r Hr. destruct (PrepareFacts.load_rows raw r Hr) as (r0 & g & _ & ->).
    unfold country_tokens. cbn [country with_genres clean].
    destruct (raw_country r0) as [c|]; cbn [fillna].
    - pose proof (split_comma_nonempty c) as Hne.
      destruct (split_comma c); [congruence | simpl; lia].
    - vm_compute. lia. }
  induction (load raw) as [|r l IH]; simpl; [lia|].
  assert (IH' := IH (fun r' Hr' => Hrow r' (or_intror Hr'))).
  destruct (in_years selected_years r && of_type selected_type r && q r);
    simpl; [|exact IH'].
  pose proof (Hrow r (or_introl eq_refl)). lia.
Qed.

Lemma every_loaded_row_is_on_the_map_witness :
  (total (type_counts (load Scenarios.scenario))
   <= total (country_counts (load Scenarios.scenario)))%nat.
Proof.
  apply (every_loaded_row_is_on_the_map Scenarios.scenario
           (2019, 2020)%Z "All" "All").
  reflexivity.
Defined.

(** *** Records and rows *)

Lemma filtered_load_kept (raw : list RawRow) (selected_years : Z * Z)
    (selected_type selected_country : string) :
  filtered_df (load raw) selected_years selected_type selected_country =
  match country_test selected_country with
  | Some q =>
      Some (flat_map (fun r => if record_kept selected_years selected_type q r
                               then load [r] else []) raw)
  | None => None
  end.
Proof.
  rewrite filtered_filter.
  destruct (country_test selected_country) as [q|] eqn:E; [|reflexivity].
  f_equal.
  apply (filter_load
           (fun row => in_years selected_years row
                       && of_type selected_type row && q row)).
  intros r g. unfold country_test in E.
  destruct (String.eqb selected_country "All").
  - injection E as <-. reflexivity.
  - destruct (re_compile selected_country); [|discriminate].
    injection E as <-. reflexivity.
Qed.

Lemma rows_of_type_load_one (t : string) (r : RawRow) :
  rows_of_type t (load [r])
  = if String.eqb t (raw_type r) then rows_of r else 0%nat.
Proof.
  unfold rows_of_type, rows_of. rewrite load_one.
  destruct (raw_listed_in r) as [s|].
  - induction (split_comma s) as [|g l IH]; simpl.
    + now destruct (String.eqb t (raw_type r)).
    + destruct (String.eqb t (raw_type r)); simpl; now rewrite IH.
  - simpl. now destruct (String.eqb t (raw_type r)).
Qed.

(** On a table that comes from the load, the slice of a type in chart 1
    is the sum, over the records of that type that pass the filters, of
    the number of rows of each record: one for a record without
    [listed_in], the number of its genre tokens otherwise. *)
Theorem type_slice_weighs_records_by_genres (raw : list RawRow)
    (selected_years : Z * Z) (selected_type selected_country : string)
    (fdf : DataFrame) (t : string) :
  filtered_df (load raw) selected_years selected_type selected_country
    = Some fdf ->
  exists q,
    country_test selected_country = Some q /\
    count_in String.eqb t (type_counts fdf)
    = list_sum
        (map (fun r =>
                if record_kept selected_years selected_type q r
                   && String.eqb t (raw_type r)
                then rows_of r else 0%nat) raw).
Proof.
  rewrite filtered_load_kept.
  destruct (country_test selected_country) as [q|]; [|discriminate].
  intros H. injection H as <-. exists q. split; [reflexivity|].
  rewrite count_type.
  rewrite filter_flat_map_if, length_flat_map_if.
  f_equal. apply map_ext. intros r.
  pose proof (rows_of_type_load_one t r) as Hr. unfold rows_of_type in Hr.
  destruct (record_kept selected_years selected_type q r);
    [exact Hr | reflexivity].
Qed.

Lemma type_slice_weighs_records_by_genres_witness :
  exists q,
    country_test "All" = Some q /\
    count_in String.eqb "TV Show" (type_counts (load Scenarios.scenario))
    = list_sum
        (map (fun r =>
                if record_kept (2019, 2020)%Z "All" q r
                   && String.eqb "TV Show" (raw_type r)
                then rows_of r else 0%nat) Scenarios.scenario).
Proof.
  apply (type_slice_weighs_records_by_genres Scenarios.scenario
           (2019, 2020)%Z "All" "All").
  reflexivity.
Defined.

End ChartFacts.
